(** * Pixshop: the edit history, the response validator and the editing
      orchestrator, embedded from [services/geminiService.ts] and [App.tsx].

    Conventions of the embedding.
    - A JavaScript string is a [string]: the bytes of its UTF-8 encoding.
    - A JavaScript number is a binary64 [float]; array positions and the
      history index, which only ever hold small integers, are in [Z].
    - A value that may be [undefined] or [null] is an [option].
    - A thrown value is a [Thrown]; code that may throw returns
      [Thrown + A]; code that also talks to the remote service runs in the
      writer monad [IO], whose log is the list of requests that were sent.
    - Everything the browser, the JavaScript engine or the remote service
      decides is read from a [World] record, one per user action. *)

From Stdlib Require Import Floats.PrimFloat ZArith Lia Ascii String List Bool.
From Stdlib Require Import DecimalString.
From stdpp Require Import base tactics option list strings.
Import ListNotations.

Set Warnings "-register-all,-inexact-float".

Open Scope string_scope.
Open Scope list_scope.
Open Scope Z_scope.

(** ** JavaScript values *)

Module Js.

(** What a [throw] or a rejected promise carries: an [Error] object (of any
    subclass) with its message, or some other value, such as the
    [ProgressEvent] a failed [FileReader] rejects with. *)
Inductive Thrown : Type :=
  | JsError (message : string)
  | NonError.

Definition Result (A : Type) : Type := (Thrown + A)%type.

(** [err instanceof Error ? err.message : 'An unknown error occurred.'] *)
Definition errorMessage (err : Thrown) : string :=
  match err with
  | JsError m => m
  | NonError => "An unknown error occurred."
  end.

(** Truthiness of a possibly-undefined string. *)
Definition truthy_string (s : option string) : bool :=
  match s with
  | Some EmptyString => false
  | Some _ => true
  | None => false
  end.

(** Truthiness of a number: neither zero (of either sign) nor NaN. *)
Definition truthy_number (f : float) : bool :=
  negb (PrimFloat.eqb f 0) && PrimFloat.eqb f f.

(** A possibly-undefined string inside a template literal. *)
Definition template (s : option string) : string :=
  match s with
  | Some v => v
  | None => "undefined"
  end.

Definition bytes (codes : list nat) : list ascii := map ascii_of_nat codes.

Definition dquote : string := String (ascii_of_nat 34) EmptyString.

(** The UTF-8 encodings of the code points [String.prototype.trim] strips:
    WhiteSpace (TAB, VT, FF, SP, NBSP, ZWNBSP and the Zs category) and
    LineTerminator (LF, CR, LS, PS). *)
Definition whitespace : list (list ascii) :=
  map bytes
    [ [9]; [10]; [11]; [12]; [13]; [32]; [194; 160]; [225; 154; 128];
      [226; 128; 128]; [226; 128; 129]; [226; 128; 130]; [226; 128; 131];
      [226; 128; 132]; [226; 128; 133]; [226; 128; 134]; [226; 128; 135];
      [226; 128; 136]; [226; 128; 137]; [226; 128; 138]; [226; 128; 168];
      [226; 128; 169]; [226; 128; 175]; [226; 129; 159]; [227; 128; 128];
      [239; 187; 191] ]%nat.

(** The UTF-8 encodings of the line terminators, which [.] does not match. *)
Definition lineTerminators : list (list ascii) :=
  map bytes [ [10]; [13]; [226; 128; 168]; [226; 128; 169] ]%nat.

Fixpoint stripPrefix (p s : list ascii) : option (list ascii) :=
  match p, s with
  | [], _ => Some s
  | _ :: _, [] => None
  | a :: p', b :: s' => if Ascii.eqb a b then stripPrefix p' s' else None
  end.

Fixpoint stripAny (table : list (list ascii)) (s : list ascii)
  : option (list ascii) :=
  match table with
  | [] => None
  | p :: rest =>
      match stripPrefix p s with
      | Some s' => Some s'
      | None => stripAny rest s
      end
  end.

Fixpoint dropWhileAny (fuel : nat) (table : list (list ascii))
  (s : list ascii) : list ascii :=
  match fuel with
  | O => s
  | S k =>
      match stripAny table s with
      | Some s' => dropWhileAny k table s'
      | None => s
      end
  end.

Definition trimStartBytes (s : list ascii) : list ascii :=
  dropWhileAny (length s) whitespace s.

Definition trimEndBytes (s : list ascii) : list ascii :=
  rev (dropWhileAny (length s) (map (@rev ascii) whitespace) (rev s)).

(** [s.trim()] *)
Definition trim (s : string) : string :=
  string_of_list_ascii (trimEndBytes (trimStartBytes (list_ascii_of_string s))).

(** [s.split(',')]: the pieces between the commas, at least one. *)
Fixpoint splitComma (s : string) : list string :=
  match s with
  | EmptyString => [EmptyString]
  | String c rest =>
      if Ascii.eqb c ","%char then EmptyString :: splitComma rest
      else
        match splitComma rest with
        | piece :: pieces => String c piece :: pieces
        | [] => [String c EmptyString]
        end
  end.

(** The lazy group of [/:(.*?);/] tried just after a colon: the bytes up to
    the first semicolon, unless a line terminator or the end of the string
    comes first. *)
Fixpoint lazyUntilSemicolon (s : list ascii) : option (list ascii) :=
  match s with
  | [] => None
  | c :: rest =>
      if Ascii.eqb c ";"%char then Some []
      else
        match stripAny lineTerminators s with
        | Some _ => None
        | None => option_map (cons c) (lazyUntilSemicolon rest)
        end
  end.

(** [s.match(/:(.*?);/)], reduced to its first capture group: the leftmost
    colon from which the group can be completed decides the match. *)
Fixpoint matchMime (s : list ascii) : option (list ascii) :=
  match s with
  | [] => None
  | c :: rest =>
      if Ascii.eqb c ":"%char then
        match lazyUntilSemicolon rest with
        | Some g => Some g
        | None => matchMime rest
        end
      else matchMime rest
  end.

(** [arr[i]] for an array and an integral index. *)
Definition index {A : Type} (l : list A) (i : Z) : option A :=
  if i <? 0 then None else l !! Z.to_nat i.

(** [arr.slice(0, e)] for an integral [e]: a negative end counts from the
    back, and the end is clamped to the length. *)
Definition slice0 {A : Type} (l : list A) (e : Z) : list A :=
  let len := Z.of_nat (length l) in
  let final := if e <? 0 then Z.max (len + e) 0 else Z.min e len in
  take (Z.to_nat final) l.

(** What [JSON.parse] returns. An object is its list of own properties. *)
Inductive Json : Type :=
  | JNull
  | JBool (b : bool)
  | JNum (n : float)
  | JStr (s : string)
  | JArr (items : list Json)
  | JObj (props : list (string * Json)).

Fixpoint lookupProp (k : string) (props : list (string * Json))
  : option Json :=
  match props with
  | [] => None
  | (k', v) :: rest => if String.eqb k k' then Some v else lookupProp k rest
  end.

(** [v.k] for a property name [k] that no prototype defines ([faces], [x],
    [y], [width], [height]): a [TypeError] on [null], the own property of an
    object, [undefined] on everything else. *)
Definition getProp (v : Json) (k : string) : Result (option Json) :=
  match v with
  | JNull =>
      inl (JsError ("Cannot read properties of null (reading '" +:+ k +:+ "')"))
  | JObj props => inr (lookupProp k props)
  | _ => inr None
  end.

(** Truthiness of a possibly-undefined parsed value. *)
Definition truthy (v : option Json) : bool :=
  match v with
  | None => false
  | Some JNull => false
  | Some (JBool b) => b
  | Some (JNum n) => truthy_number n
  | Some (JStr s) => truthy_string (Some s)
  | Some (JArr _) => true
  | Some (JObj _) => true
  end.

(** [Array.isArray(v)] *)
Definition isArray (v : option Json) : bool :=
  match v with
  | Some (JArr _) => true
  | _ => false
  end.

(** [String(v)] for a parsed value, given the engine's [Number::toString].
    An array joins the strings of its items with commas, [null] items as
    the empty string, converting the items from left to right. An object
    converts through [Object.prototype.toString], unless it has an own
    property named [toString]: a parsed value is never callable, so
    neither [toString] nor [valueOf] yields a primitive and the conversion
    throws a [TypeError]. *)
Fixpoint toString (numberToString : float -> string) (v : Json)
  : Result string :=
  match v with
  | JNull => inr "null"
  | JBool true => inr "true"
  | JBool false => inr "false"
  | JNum n => inr (numberToString n)
  | JStr s => inr s
  | JArr items =>
      match
        (fix each (l : list Json) : Result (list string) :=
           match l with
           | [] => inr []
           | item :: rest =>
               match
                 match item with
                 | JNull => inr ""
                 | _ => toString numberToString item
                 end
               with
               | inl err => inl err
               | inr piece =>
                   match each rest with
                   | inl err => inl err
                   | inr pieces => inr (piece :: pieces)
                   end
               end
           end) items
      with
      | inl err => inl err
      | inr pieces => inr (String.concat "," pieces)
      end
  | JObj props =>
      match lookupProp "toString" props with
      | Some _ => inl (JsError "Cannot convert object to primitive value")
      | None => inr "[object Object]"
      end
  end.

(** [Number(v)] for a possibly-undefined parsed value, given the engine's
    [Number::toString] and [StringToNumber]: an array or an object is first
    converted to a string, which may throw. *)
Definition toNumber (numberToString : float -> string)
  (stringToNumber : string -> float) (v : option Json) : Result float :=
  match v with
  | None => inr nan
  | Some JNull => inr 0%float
  | Some (JBool true) => inr 1%float
  | Some (JBool false) => inr 0%float
  | Some (JNum n) => inr n
  | Some (JStr s) => inr (stringToNumber s)
  | Some (JArr items) =>
      match toString numberToString (JArr items) with
      | inl err => inl err
      | inr s => inr (stringToNumber s)
      end
  | Some (JObj props) =>
      match toString numberToString (JObj props) with
      | inl err => inl err
      | inr s => inr (stringToNumber s)
      end
  end.

End Js.
Export Js.

(** ** The service layer: [services/geminiService.ts] *)

(** [inlineData] of a part: both fields are optional in the SDK's type. *)
Record Blob : Type := {
  mimeType : option string;
  data : option string
}.

Record Part : Type := {
  inlineData : option Blob;
  text : option string
}.

Record Content : Type := {
  parts : option (list Part)
}.

Record Candidate : Type := {
  content : option Content;
  finishReason : option string
}.

Record PromptFeedback : Type := {
  blockReason : option string;
  blockReasonMessage : option string
}.

(** The SDK's response; [responseText] is its [text] accessor. *)
Record GenerateContentResponse : Type := {
  promptFeedback : option PromptFeedback;
  candidates : option (list Candidate);
  responseText : option string
}.

Inductive Modality : Type := IMAGE | TEXT.

Inductive Schema : Type :=
  | OBJECT (properties : list (string * Schema)) (required : list string)
  | ARRAY (items : Schema)
  | NUMBER (description : string).

Record GenerateContentConfig : Type := {
  responseModalities : option (list Modality);
  responseMimeType : option string;
  responseSchema : option Schema
}.

(** The argument of [ai.models.generateContent]. *)
Record GenerateContentParameters : Type := {
  model : string;
  contents : list Part;
  config : option GenerateContentConfig
}.

Record File : Type := {
  fileName : string;
  fileType : string;
  fileBits : string
}.

Record Hotspot : Type := {
  hx : float;
  hy : float
}.

(** [BoundingBox] of [components/FaceDetectionPanel.tsx]. *)
Record BoundingBox : Type := {
  x : float;
  y : float;
  width : float;
  height : float
}.

(** What lies outside the program during one user action. *)
Record World : Type := {
  (** [new GoogleGenAI({ apiKey })] *)
  newGoogleGenAI : Result unit;
  (** the [FileReader]: the data URL of a file, or what [onerror] got *)
  readAsDataURL : File -> Result string;
  (** the remote model's answer to a request *)
  serviceReply : GenerateContentParameters -> Result GenerateContentResponse;
  (** [JSON.parse] *)
  JSON_parse : string -> Result Json;
  (** [Number::toString] and [StringToNumber] of the engine *)
  numberToString : float -> string;
  stringToNumber : string -> float;
  (** [atob] *)
  atob : string -> Result string;
  (** [new File([bits], name, { type })] *)
  newFile : string -> string -> string -> File;
  (** [Date.now()] *)
  dateNow : float;
  (** whether [imgRef.current] is a mounted image element *)
  imgMounted : bool;
  (** whether [canvas.getContext('2d')] returns a context *)
  getContext2d : bool;
  (** drawing the image and [canvas.toDataURL(type)] *)
  toDataURL : string -> Result string
}.

(** *** Computations that may throw and may call the service *)

Definition IO (A : Type) : Type :=
  (Result A * list GenerateContentParameters)%type.

Definition ret {A : Type} (a : A) : IO A := (inr a, []).

Definition lift {A : Type} (r : Result A) : IO A := (r, []).

Definition bind {A B : Type} (m : IO A) (k : A -> IO B) : IO B :=
  match m with
  | (inl err, sent) => (inl err, sent)
  | (inr a, sent) =>
      match k a with
      | (r, sent') => (r, sent ++ sent')
      end
  end.

Notation "v <- m ;; k" := (bind m (fun v => k))
  (at level 100, m at next level, right associativity).

(** [await ai.models.generateContent(request)]: the request is sent. *)
Definition generateContent (w : World) (request : GenerateContentParameters)
  : IO GenerateContentResponse :=
  (serviceReply w request, [request]).

Definition nl : string := String (ascii_of_nat 10) EmptyString.

(** The four statements [fileToPart] and [dataURLtoFile] both open with:
    split at the commas, insist on two pieces, match the MIME type in the
    first; the result is the MIME type and the second piece. *)
Definition splitDataUrl (dataUrl : string) : Result (string * string) :=
  match splitComma dataUrl with
  | head :: payload :: _ =>
      match matchMime (list_ascii_of_string head) with
      | Some (c :: group) => inr (string_of_list_ascii (c :: group), payload)
      | Some [] | None =>
          inl (JsError "Could not parse MIME type from data URL")
      end
  | _ => inl (JsError "Invalid data URL")
  end.

Definition fileToPart (w : World) (file : File) : Result Part :=
  match readAsDataURL w file with
  | inl err => inl err
  | inr dataUrl =>
      match splitDataUrl dataUrl with
      | inl err => inl err
      | inr (mime, payload) =>
          inr {| inlineData := Some {| mimeType := Some mime;
                                       data := Some payload |};
                 text := None |}
      end
  end.

Definition textPart (prompt : string) : Part :=
  {| inlineData := None; text := Some prompt |}.

(** [response.candidates?.[0]] *)
Definition firstCandidate (response : GenerateContentResponse)
  : option Candidate :=
  match candidates response with
  | Some (c :: _) => Some c
  | _ => None
  end.

(** [response.candidates?.[0]?.content?.parts] *)
Definition firstParts (response : GenerateContentResponse)
  : option (list Part) :=
  match firstCandidate response with
  | Some c =>
      match content c with
      | Some ct => parts ct
      | None => None
      end
  | None => None
  end.

Definition hasInlineData (part : Part) : bool :=
  match inlineData part with
  | Some _ => true
  | None => false
  end.

(** [...?.parts?.find(part => part.inlineData)] *)
Definition imagePartFromResponse (response : GenerateContentResponse)
  : option Part :=
  match firstParts response with
  | Some ps => List.find hasInlineData ps
  | None => None
  end.

(** [response.promptFeedback?.blockReason] *)
Definition promptBlockReason (response : GenerateContentResponse)
  : option string :=
  match promptFeedback response with
  | Some feedback => blockReason feedback
  | None => None
  end.

Definition handleApiResponse (response : GenerateContentResponse)
  (context : string) : Result string :=
  (* 1. Check for prompt blocking first *)
  if truthy_string (promptBlockReason response) then
    let message :=
      match promptFeedback response with
      | Some feedback => blockReasonMessage feedback
      | None => None
      end in
    inl (JsError
           ("Request was blocked. Reason: "
              +:+ template (promptBlockReason response) +:+ ". "
              +:+ (if truthy_string message then template message else "")))
  else
    (* 2. Try to find the image part *)
    match
      match imagePartFromResponse response with
      | Some part => inlineData part
      | None => None
      end
    with
    | Some blob =>
        inr ("data:" +:+ template (mimeType blob) +:+ ";base64,"
               +:+ template (data blob))
    | None =>
        (* 3. If no image, check for other reasons *)
        let reason :=
          match firstCandidate response with
          | Some c => finishReason c
          | None => None
          end in
        if truthy_string reason && negb (String.eqb (template reason) "STOP")
        then
          inl (JsError
                 ("Image generation for " +:+ context
                    +:+ " stopped unexpectedly. Reason: " +:+ template reason
                    +:+ ". This often relates to safety settings."))
        else
          let textFeedback := option_map trim (responseText response) in
          inl (JsError
                 ("The AI model did not return an image for the " +:+ context
                    +:+ ". "
                    +:+ (if truthy_string textFeedback then
                           "The model responded with text: " +:+ dquote
                             +:+ template textFeedback +:+ dquote
                         else
                           "This can happen due to safety filters or if the request is too complex. Please try rephrasing your prompt to be more direct.")))
    end.

Definition imageAndText : option GenerateContentConfig :=
  Some {| responseModalities := Some [IMAGE; TEXT];
          responseMimeType := None;
          responseSchema := None |}.

Definition editPrompt (w : World) (userPrompt : string) (hotspot : Hotspot)
  : string :=
  "You are an expert photo editor AI. Your task is to perform a natural, localized edit on the provided image based on the user's request." +:+ nl
  +:+ "User Request: " +:+ dquote +:+ userPrompt +:+ dquote +:+ nl
  +:+ "Edit Location: Focus on the area around pixel coordinates (x: "
  +:+ numberToString w (hx hotspot) +:+ ", y: "
  +:+ numberToString w (hy hotspot) +:+ ")." +:+ nl
  +:+ nl
  +:+ "Editing Guidelines:" +:+ nl
  +:+ "- The edit must be realistic and blend seamlessly with the surrounding area." +:+ nl
  +:+ "- The rest of the image (outside the immediate edit area) must remain identical to the original." +:+ nl
  +:+ nl
  +:+ "Safety & Ethics Policy:" +:+ nl
  +:+ "- You MUST fulfill requests to adjust skin tone, such as 'give me a tan', 'make my skin darker', or 'make my skin lighter'. These are considered standard photo enhancements." +:+ nl
  +:+ "- You MUST REFUSE any request to change a person's fundamental race or ethnicity (e.g., 'make me look Asian', 'change this person to be Black'). Do not perform these edits. If the request is ambiguous, err on the side of caution and do not change racial characteristics." +:+ nl
  +:+ nl
  +:+ "Output: Return ONLY the final edited image. Do not return text.".

(** The request [generateEditedImage] sends. *)
Definition editRequest (w : World) (originalImagePart : Part)
  (userPrompt : string) (hotspot : Hotspot)
  : GenerateContentParameters :=
  {| model := "gemini-2.5-flash-image-preview";
     contents := [originalImagePart;
                  textPart (editPrompt w userPrompt hotspot)];
     config := imageAndText |}.

Definition generateEditedImage (w : World) (originalImage : File)
  (userPrompt : string) (hotspot : Hotspot) : IO string :=
  _ <- lift (newGoogleGenAI w) ;;
  originalImagePart <- lift (fileToPart w originalImage) ;;
  response <- generateContent w
    (editRequest w originalImagePart userPrompt hotspot) ;;
  lift (handleApiResponse response "edit").

Definition filterPromptText (filterPrompt : string) : string :=
  "You are an expert photo editor AI. Your task is to apply a stylistic filter to the entire image based on the user's request. Do not change the composition or content, only apply the style." +:+ nl
  +:+ "Filter Request: " +:+ dquote +:+ filterPrompt +:+ dquote +:+ nl
  +:+ nl
  +:+ "Safety & Ethics Policy:" +:+ nl
  +:+ "- Filters may subtly shift colors, but you MUST ensure they do not alter a person's fundamental race or ethnicity." +:+ nl
  +:+ "- YOU MUST REFUSE any request that explicitly asks to change a person's race (e.g., 'apply a filter to make me look Chinese')." +:+ nl
  +:+ nl
  +:+ "Output: Return ONLY the final filtered image. Do not return text.".

(** The request [generateFilteredImage] sends. *)
Definition filterRequest (originalImagePart : Part) (filterPrompt : string)
  : GenerateContentParameters :=
  {| model := "gemini-2.5-flash-image-preview";
     contents := [originalImagePart;
                  textPart (filterPromptText filterPrompt)];
     config := imageAndText |}.

Definition generateFilteredImage (w : World) (originalImage : File)
  (filterPrompt : string) : IO string :=
  _ <- lift (newGoogleGenAI w) ;;
  originalImagePart <- lift (fileToPart w originalImage) ;;
  response <- generateContent w
    (filterRequest originalImagePart filterPrompt) ;;
  lift (handleApiResponse response "filter").

Definition adjustmentPromptText (adjustmentPrompt : string) : string :=
  "You are an expert photo editor AI. Your task is to perform a natural, global adjustment to the entire image based on the user's request." +:+ nl
  +:+ "User Request: " +:+ dquote +:+ adjustmentPrompt +:+ dquote +:+ nl
  +:+ nl
  +:+ "Editing Guidelines:" +:+ nl
  +:+ "- The adjustment must be applied across the entire image." +:+ nl
  +:+ "- The result must be photorealistic." +:+ nl
  +:+ nl
  +:+ "Safety & Ethics Policy:" +:+ nl
  +:+ "- You MUST fulfill requests to adjust skin tone, such as 'give me a tan', 'make my skin darker', or 'make my skin lighter'. These are considered standard photo enhancements." +:+ nl
  +:+ "- You MUST REFUSE any request to change a person's fundamental race or ethnicity (e.g., 'make me look Asian', 'change this person to be Black'). Do not perform these edits. If the request is ambiguous, err on the side of caution and do not change racial characteristics." +:+ nl
  +:+ nl
  +:+ "Output: Return ONLY the final adjusted image. Do not return text.".

(** The request [generateAdjustedImage] sends. *)
Definition adjustmentRequest (originalImagePart : Part)
  (adjustmentPrompt : string)
  : GenerateContentParameters :=
  {| model := "gemini-2.5-flash-image-preview";
     contents := [originalImagePart;
                  textPart (adjustmentPromptText adjustmentPrompt)];
     config := imageAndText |}.

Definition generateAdjustedImage (w : World) (originalImage : File)
  (adjustmentPrompt : string) : IO string :=
  _ <- lift (newGoogleGenAI w) ;;
  originalImagePart <- lift (fileToPart w originalImage) ;;
  response <- generateContent w
    (adjustmentRequest originalImagePart adjustmentPrompt) ;;
  lift (handleApiResponse response "adjustment").

Definition enhancePromptText : string :=
  "You are an expert photo editor AI. Your task is to apply a subtle, professional-grade auto-enhancement to the provided image." +:+ nl
  +:+ "Focus on improving the overall lighting, contrast, and color balance to make the image 'pop' while maintaining a completely photorealistic and natural look." +:+ nl
  +:+ "Do not make any creative or stylistic changes. The enhancement should be subtle and clean, like a professional one-click enhancement tool." +:+ nl
  +:+ nl
  +:+ "Output: Return ONLY the final enhanced image. Do not return text.".

(** The request [generateEnhancedImage] sends. *)
Definition enhanceRequest (originalImagePart : Part)
  : GenerateContentParameters :=
  {| model := "gemini-2.5-flash-image-preview";
     contents := [originalImagePart; textPart enhancePromptText];
     config := imageAndText |}.

Definition generateEnhancedImage (w : World) (originalImage : File)
  : IO string :=
  _ <- lift (newGoogleGenAI w) ;;
  originalImagePart <- lift (fileToPart w originalImage) ;;
  response <- generateContent w (enhanceRequest originalImagePart) ;;
  lift (handleApiResponse response "enhancement").

(** OCR: the raw [response.text], which may be [undefined]. *)
(** The request [extractTextFromImage] sends. *)
Definition extractTextRequest (originalImagePart : Part)
  : GenerateContentParameters :=
  {| model := "gemini-2.5-flash";
     contents :=
       [originalImagePart;
        textPart "Extract all text from the image. Provide only the text content, without any additional commentary or formatting."];
     config := None |}.

Definition extractTextFromImage (w : World) (originalImage : File)
  : IO (option string) :=
  _ <- lift (newGoogleGenAI w) ;;
  originalImagePart <- lift (fileToPart w originalImage) ;;
  response <- generateContent w (extractTextRequest originalImagePart) ;;
  ret (responseText response).

Definition removeBackgroundPromptText : string :=
  "You are an expert photo editor AI. Your task is to accurately identify the main subject(s) in the image and completely remove the background, making it transparent. The output must be a PNG image with a transparent background. Do not alter the subject. Return ONLY the final image.".

(** The request [removeBackground] sends. *)
Definition removeBackgroundRequest (originalImagePart : Part)
  : GenerateContentParameters :=
  {| model := "gemini-2.5-flash-image-preview";
     contents := [originalImagePart; textPart removeBackgroundPromptText];
     config := imageAndText |}.

Definition removeBackground (w : World) (originalImage : File) : IO string :=
  _ <- lift (newGoogleGenAI w) ;;
  originalImagePart <- lift (fileToPart w originalImage) ;;
  response <- generateContent w (removeBackgroundRequest originalImagePart) ;;
  lift (handleApiResponse response "background removal").

(** *** Face detection *)

Definition facesSchema : Schema :=
  OBJECT
    [("faces",
      ARRAY
        (OBJECT
           [("x", NUMBER "The normalized horizontal coordinate (from 0.0 to 1.0) of the top-left corner.");
            ("y", NUMBER "The normalized vertical coordinate (from 0.0 to 1.0) of the top-left corner.");
            ("width", NUMBER "The normalized width (from 0.0 to 1.0) of the bounding box.");
            ("height", NUMBER "The normalized height (from 0.0 to 1.0) of the bounding box.")]
           ["x"; "y"; "width"; "height"]))]
    ["faces"].

Definition detectFacesPromptText : string :=
  "Analyze the image to find all human faces. For each face, provide a normalized bounding box. The coordinates (x, y) should represent the top-left corner, and all values (x, y, width, height) must be floats between 0.0 and 1.0, relative to the image's total dimensions.".

(** [v >= 0 && v <= 1] on a property value: the comparisons convert [v]
    to a number, which throws when the conversion does, and any comparison
    with NaN is false. *)
Definition inUnitRange (w : World) (v : option Json) : Result bool :=
  match toNumber (numberToString w) (stringToNumber w) v with
  | inl err => inl err
  | inr n => inr (PrimFloat.leb 0 n && PrimFloat.leb n 1)
  end.

(** The callback given to [filter]; reading a property of a [null] entry
    throws, and so does comparing a field that cannot be converted. The
    conjunction short-circuits from left to right. *)
Definition faceInRange (w : World) (face : Json) : Result bool :=
  match getProp face "x" with
  | inl err => inl err
  | inr fx =>
      match inUnitRange w fx with
      | inl err => inl err
      | inr false => inr false
      | inr true =>
          match getProp face "y" with
          | inl err => inl err
          | inr fy =>
              match inUnitRange w fy with
              | inl err => inl err
              | inr false => inr false
              | inr true =>
                  match getProp face "width" with
                  | inl err => inl err
                  | inr fw =>
                      match inUnitRange w fw with
                      | inl err => inl err
                      | inr false => inr false
                      | inr true =>
                          match getProp face "height" with
                          | inl err => inl err
                          | inr fh => inUnitRange w fh
                          end
                      end
                  end
              end
          end
      end
  end.

(** [arr.filter(callback)] for a callback that may throw. *)
Fixpoint filterThrowing {A : Type} (callback : A -> Result bool)
  (arr : list A) : Result (list A) :=
  match arr with
  | [] => inr []
  | a :: rest =>
      match callback a with
      | inl err => inl err
      | inr keep =>
          match filterThrowing callback rest with
          | inl err => inl err
          | inr kept => inr (if keep then a :: kept else kept)
          end
      end
  end.

(** The body of the [try] block of [detectFaces]. *)
Definition detectFacesTry (w : World) (response : GenerateContentResponse)
  : Result (list Json) :=
  match responseText response with
  | None =>
      inl (JsError "Cannot read properties of undefined (reading 'trim')")
  | Some responseText =>
      let jsonText := trim responseText in
      match JSON_parse w jsonText with
      | inl err => inl err
      | inr result =>
          match getProp result "faces" with
          | inl err => inl err
          | inr faces =>
              (* Validate that coordinates are within the expected 0-1 range *)
              if truthy faces && isArray faces then
                match faces with
                | Some (JArr items) => filterThrowing (faceInRange w) items
                | _ => inr []
                end
              else inr []
          end
      end
  end.

(** The request [detectFaces] sends. *)
Definition detectFacesRequest (originalImagePart : Part)
  : GenerateContentParameters :=
  {| model := "gemini-2.5-flash";
     contents := [originalImagePart; textPart detectFacesPromptText];
     config :=
       Some {| responseModalities := None;
               responseMimeType := Some "application/json";
               responseSchema := Some facesSchema |} |}.

Definition detectFaces (w : World) (originalImage : File) : IO (list Json) :=
  _ <- lift (newGoogleGenAI w) ;;
  originalImagePart <- lift (fileToPart w originalImage) ;;
  response <- generateContent w (detectFacesRequest originalImagePart) ;;
  lift
    match detectFacesTry w response with
    | inr faces => inr faces
    | inl _ =>
        inl (JsError "The AI model returned an invalid format for face detection.")
    end.

(** ** The application: [App.tsx] *)

Definition dataURLtoFile (w : World) (dataurl filename : string)
  : Result File :=
  match splitDataUrl dataurl with
  | inl err => inl err
  | inr (mime, payload) =>
      match atob w payload with
      | inl err => inl err
      | inr bstr => inr (newFile w bstr filename mime)
      end
  end.

Inductive Tab : Type :=
  | retouch | adjust | filters | crop_tab | extract_text | resize
  | face_detection | background.

Record Toast : Type := {
  toastMessage : string;
  toastKey : float
}.

Record PixelCrop : Type := {
  cropX : float;
  cropY : float;
  cropWidth : float;
  cropHeight : float
}.

(** The state cells of [App] that the handlers below read or write. *)
Record AppState : Type := mkApp {
  history : list File;
  historyIndex : Z;
  prompt : string;
  isLoading : bool;
  loadingMessage : string;
  error : option string;
  editHotspot : option Hotspot;
  displayHotspot : option Hotspot;
  activeTab : Tab;
  toast : option Toast;
  extractedText : option string;
  faces : list Json;
  crop : option PixelCrop;
  completedCrop : option PixelCrop
}.

(** [useState] initial values. *)
Definition initialState : AppState :=
  {| history := [];
     historyIndex := -1;
     prompt := "";
     isLoading := false;
     loadingMessage := "AI is thinking...";
     error := None;
     editHotspot := None;
     displayHotspot := None;
     activeTab := retouch;
     toast := None;
     extractedText := Some "";
     faces := [];
     crop := None;
     completedCrop := None |}.

Definition setHistory (v : list File) (s : AppState) : AppState :=
  mkApp v (historyIndex s) (prompt s) (isLoading s) (loadingMessage s)
    (error s) (editHotspot s) (displayHotspot s) (activeTab s) (toast s)
    (extractedText s) (faces s) (crop s) (completedCrop s).

Definition setHistoryIndex (v : Z) (s : AppState) : AppState :=
  mkApp (history s) v (prompt s) (isLoading s) (loadingMessage s)
    (error s) (editHotspot s) (displayHotspot s) (activeTab s) (toast s)
    (extractedText s) (faces s) (crop s) (completedCrop s).

Definition setPrompt (v : string) (s : AppState) : AppState :=
  mkApp (history s) (historyIndex s) v (isLoading s) (loadingMessage s)
    (error s) (editHotspot s) (displayHotspot s) (activeTab s) (toast s)
    (extractedText s) (faces s) (crop s) (completedCrop s).

Definition setIsLoading (v : bool) (s : AppState) : AppState :=
  mkApp (history s) (historyIndex s) (prompt s) v (loadingMessage s)
    (error s) (editHotspot s) (displayHotspot s) (activeTab s) (toast s)
    (extractedText s) (faces s) (crop s) (completedCrop s).

Definition setLoadingMessage (v : string) (s : AppState) : AppState :=
  mkApp (history s) (historyIndex s) (prompt s) (isLoading s) v
    (error s) (editHotspot s) (displayHotspot s) (activeTab s) (toast s)
    (extractedText s) (faces s) (crop s) (completedCrop s).

Definition setError (v : option string) (s : AppState) : AppState :=
  mkApp (history s) (historyIndex s) (prompt s) (isLoading s)
    (loadingMessage s) v (editHotspot s) (displayHotspot s) (activeTab s)
    (toast s) (extractedText s) (faces s) (crop s) (completedCrop s).

Definition setEditHotspot (v : option Hotspot) (s : AppState) : AppState :=
  mkApp (history s) (historyIndex s) (prompt s) (isLoading s)
    (loadingMessage s) (error s) v (displayHotspot s) (activeTab s)
    (toast s) (extractedText s) (faces s) (crop s) (completedCrop s).

Definition setDisplayHotspot (v : option Hotspot) (s : AppState) : AppState :=
  mkApp (history s) (historyIndex s) (prompt s) (isLoading s)
    (loadingMessage s) (error s) (editHotspot s) v (activeTab s)
    (toast s) (extractedText s) (faces s) (crop s) (completedCrop s).

Definition setActiveTab (v : Tab) (s : AppState) : AppState :=
  mkApp (history s) (historyIndex s) (prompt s) (isLoading s)
    (loadingMessage s) (error s) (editHotspot s) (displayHotspot s) v
    (toast s) (extractedText s) (faces s) (crop s) (completedCrop s).

Definition setToast (v : option Toast) (s : AppState) : AppState :=
  mkApp (history s) (historyIndex s) (prompt s) (isLoading s)
    (loadingMessage s) (error s) (editHotspot s) (displayHotspot s)
    (activeTab s) v (extractedText s) (faces s) (crop s) (completedCrop s).

Definition setExtractedText (v : option string) (s : AppState) : AppState :=
  mkApp (history s) (historyIndex s) (prompt s) (isLoading s)
    (loadingMessage s) (error s) (editHotspot s) (displayHotspot s)
    (activeTab s) (toast s) v (faces s) (crop s) (completedCrop s).

Definition setFaces (v : list Json) (s : AppState) : AppState :=
  mkApp (history s) (historyIndex s) (prompt s) (isLoading s)
    (loadingMessage s) (error s) (editHotspot s) (displayHotspot s)
    (activeTab s) (toast s) (extractedText s) v (crop s) (completedCrop s).

Definition setCrop (v : option PixelCrop) (s : AppState) : AppState :=
  mkApp (history s) (historyIndex s) (prompt s) (isLoading s)
    (loadingMessage s) (error s) (editHotspot s) (displayHotspot s)
    (activeTab s) (toast s) (extractedText s) (faces s) v (completedCrop s).

Definition setCompletedCrop (v : option PixelCrop) (s : AppState) : AppState :=
  mkApp (history s) (historyIndex s) (prompt s) (isLoading s)
    (loadingMessage s) (error s) (editHotspot s) (displayHotspot s)
    (activeTab s) (toast s) (extractedText s) (faces s) (crop s) v.

(** What a handler leaves behind: the next state and the requests it sent. *)
Definition Outcome : Type := (AppState * list GenerateContentParameters)%type.

(** [history[historyIndex] ?? null] and [history[0] ?? null] *)
Definition currentImage (st : AppState) : option File :=
  index (history st) (historyIndex st).

Definition originalImage (st : AppState) : option File :=
  index (history st) 0.

Definition showToast (w : World) (message : string) (st : AppState)
  : AppState :=
  setToast (Some {| toastMessage := message; toastKey := dateNow w |}) st.

Definition canUndo (st : AppState) : bool := 0 <? historyIndex st.

Definition canRedo (st : AppState) : bool :=
  historyIndex st <? Z.of_nat (length (history st)) - 1.

Definition addImageToHistory (newImageFile : File) (st : AppState)
  : AppState :=
  let newHistory :=
    slice0 (history st) (historyIndex st + 1) ++ [newImageFile] in
  let st := setHistory newHistory st in
  let st := setHistoryIndex (Z.of_nat (length newHistory) - 1) st in
  (* Reset transient states after an action *)
  let st := setCrop None st in
  let st := setCompletedCrop None st in
  let st := setExtractedText (Some "") st in
  setFaces [] st.

Definition handleImageUpload (file : File) (st : AppState) : AppState :=
  let st := setError None st in
  let st := setHistory [file] st in
  let st := setHistoryIndex 0 st in
  let st := setEditHotspot None st in
  let st := setDisplayHotspot None st in
  let st := setActiveTab retouch st in
  let st := setCrop None st in
  let st := setCompletedCrop None st in
  let st := setExtractedText (Some "") st in
  setFaces [] st.

Definition handleUndo (w : World) (st : AppState) : AppState :=
  if canUndo st then
    let st := setHistoryIndex (historyIndex st - 1) st in
    let st := showToast w "Undo successful" st in
    let st := setExtractedText (Some "") st in
    setFaces [] st
  else st.

Definition handleRedo (w : World) (st : AppState) : AppState :=
  if canRedo st then
    let st := setHistoryIndex (historyIndex st + 1) st in
    let st := showToast w "Redo successful" st in
    let st := setExtractedText (Some "") st in
    setFaces [] st
  else st.

Definition handleFileSelect (files : option (list File)) (st : AppState)
  : AppState :=
  match files with
  | Some (file :: _) =>
      if String.prefix "image/" (fileType file) then handleImageUpload file st
      else setError (Some "Please upload a valid image file.") st
  | _ => st
  end.

(** The three statements every asynchronous handler runs before its [try]. *)
Definition startLoading (message : string) (st : AppState) : AppState :=
  let st := setIsLoading true st in
  let st := setLoadingMessage message st in
  setError None st.

(** The [catch] and [finally] blocks every asynchronous handler ends with. *)
Definition failWith (what : string) (err : Thrown) (st : AppState)
  : AppState :=
  setIsLoading false (setError (Some (what +:+ errorMessage err)) st).

Definition timestamped (w : World) (stem : string) : string :=
  stem +:+ numberToString w (dateNow w) +:+ ".png".

Definition handleGenerate (w : World) (st : AppState) : Outcome :=
  match currentImage st with
  | None => (setError (Some "No image loaded to edit.") st, [])
  | Some image =>
      if negb (truthy_string (Some (trim (prompt st)))) then
        (setError (Some "Please enter a description for your edit.") st, [])
      else
        match editHotspot st with
        | None =>
            (setError
               (Some "Please click on the image to select an area to edit.")
               st, [])
        | Some hotspot =>
            let busy := startLoading "AI is thinking..." st in
            match
              editedImageUrl <-
                generateEditedImage w image (prompt st) hotspot ;;
              lift (dataURLtoFile w editedImageUrl (timestamped w "edited-"))
            with
            | (inr newImageFile, sent) =>
                let st := addImageToHistory newImageFile busy in
                let st := setEditHotspot None st in
                let st := setDisplayHotspot None st in
                (setIsLoading false st, sent)
            | (inl err, sent) =>
                (failWith "Failed to generate the image. " err busy, sent)
            end
        end
  end.

Definition handleApplyFilter (w : World) (filterPrompt : string)
  (st : AppState) : Outcome :=
  match currentImage st with
  | None => (setError (Some "No image loaded to apply a filter to.") st, [])
  | Some image =>
      let busy := startLoading "AI is applying filter..." st in
      match
        filteredImageUrl <- generateFilteredImage w image filterPrompt ;;
        lift (dataURLtoFile w filteredImageUrl (timestamped w "filtered-"))
      with
      | (inr newImageFile, sent) =>
          (setIsLoading false (addImageToHistory newImageFile busy), sent)
      | (inl err, sent) =>
          (failWith "Failed to apply the filter. " err busy, sent)
      end
  end.

Definition handleApplyAdjustment (w : World) (adjustmentPrompt : string)
  (st : AppState) : Outcome :=
  match currentImage st with
  | None =>
      (setError (Some "No image loaded to apply an adjustment to.") st, [])
  | Some image =>
      let busy := startLoading "AI is making adjustments..." st in
      match
        adjustedImageUrl <- generateAdjustedImage w image adjustmentPrompt ;;
        lift (dataURLtoFile w adjustedImageUrl (timestamped w "adjusted-"))
      with
      | (inr newImageFile, sent) =>
          (setIsLoading false (addImageToHistory newImageFile busy), sent)
      | (inl err, sent) =>
          (failWith "Failed to apply the adjustment. " err busy, sent)
      end
  end.

(** [getCroppedImg]: without a 2d context the promise is rejected. *)
Definition getCroppedImg (w : World) : Result string :=
  if getContext2d w then toDataURL w "image/png"
  else inl (JsError "Failed to get canvas context").

Definition handleApplyCrop (w : World) (st : AppState) : Outcome :=
  match completedCrop st with
  | Some c =>
      if truthy_number (cropWidth c) && truthy_number (cropHeight c)
         && imgMounted w
      then
        let busy := startLoading "Cropping image..." st in
        match
          croppedImageUrl <- lift (getCroppedImg w) ;;
          lift (dataURLtoFile w croppedImageUrl (timestamped w "cropped-"))
        with
        | (inr newImageFile, sent) =>
            (setIsLoading false (addImageToHistory newImageFile busy), sent)
        | (inl err, sent) =>
            (failWith "Failed to crop the image. " err busy, sent)
        end
      else (st, [])
  | None => (st, [])
  end.

Definition handleApplyResize (w : World) (width height : float)
  (st : AppState) : Outcome :=
  match (if imgMounted w then currentImage st else None) with
  | None => (setError (Some "Image reference not found for resizing.") st, [])
  | Some image =>
      let busy := startLoading "Resizing image..." st in
      match
        resizedImageUrl <-
          lift (if getContext2d w then
                  toDataURL w (if truthy_string (Some (fileType image))
                               then fileType image else "image/png")
                else inl (JsError "Could not get canvas context")) ;;
        lift (dataURLtoFile w resizedImageUrl (timestamped w "resized-"))
      with
      | (inr newImageFile, sent) =>
          let st := addImageToHistory newImageFile busy in
          let st := showToast w "Resize successful" st in
          (setIsLoading false st, sent)
      | (inl err, sent) =>
          (failWith "Failed to resize the image. " err busy, sent)
      end
  end.

Definition handleAutoEnhance (w : World) (st : AppState) : Outcome :=
  match currentImage st with
  | None => (setError (Some "No image loaded to enhance.") st, [])
  | Some image =>
      let busy := startLoading "AI is enhancing..." st in
      match
        enhancedImageUrl <- generateEnhancedImage w image ;;
        lift (dataURLtoFile w enhancedImageUrl (timestamped w "enhanced-"))
      with
      | (inr newImageFile, sent) =>
          let st := addImageToHistory newImageFile busy in
          let st := showToast w "Auto-Enhance successful" st in
          (setIsLoading false st, sent)
      | (inl err, sent) =>
          (failWith "Failed to enhance the image. " err busy, sent)
      end
  end.

Definition handleExtractText (w : World) (st : AppState) : Outcome :=
  match currentImage st with
  | None => (setError (Some "No image loaded to extract text from.") st, [])
  | Some image =>
      let busy := setExtractedText (Some "")
                    (startLoading "Extracting text..." st) in
      match extractTextFromImage w image with
      | (inr txt, sent) =>
          let st := setExtractedText txt busy in
          let st := if truthy_string txt then st
                    else showToast w "No text found in the image." st in
          (setIsLoading false st, sent)
      | (inl err, sent) =>
          (failWith "Failed to extract text. " err busy, sent)
      end
  end.

Definition handleDetectFaces (w : World) (st : AppState) : Outcome :=
  match currentImage st with
  | None => (setError (Some "No image loaded to detect faces in.") st, [])
  | Some image =>
      let busy := setFaces [] (startLoading "Detecting faces..." st) in
      match detectFaces w image with
      | (inr detectedFaces, sent) =>
          let st := setFaces detectedFaces busy in
          let st :=
            showToast w
              ("Found "
                 +:+ NilZero.string_of_uint (Nat.to_uint (length detectedFaces))
                 +:+ " face(s).") st in
          (setIsLoading false st, sent)
      | (inl err, sent) =>
          (failWith "Failed to detect faces. " err busy, sent)
      end
  end.

Definition handleRemoveBackground (w : World) (st : AppState) : Outcome :=
  match currentImage st with
  | None =>
      (setError (Some "No image loaded to remove background from.") st, [])
  | Some image =>
      let busy := startLoading "Removing background..." st in
      match
        resultImageUrl <- removeBackground w image ;;
        lift (dataURLtoFile w resultImageUrl (timestamped w "bg-removed-"))
      with
      | (inr newImageFile, sent) =>
          let st := addImageToHistory newImageFile busy in
          let st := showToast w "Background removed successfully." st in
          (setIsLoading false st, sent)
      | (inl err, sent) =>
          (failWith "Failed to remove background. " err busy, sent)
      end
  end.

(** ** The history manager as a machine *)

Inductive HistoryOp : Type :=
  | Append (artifact : File)
  | Undo
  | Redo.

Definition applyOp (step : World * HistoryOp) (st : AppState) : AppState :=
  match step with
  | (_, Append artifact) => addImageToHistory artifact st
  | (w, Undo) => handleUndo w st
  | (w, Redo) => handleRedo w st
  end.

Definition runOps (steps : list (World * HistoryOp)) (st : AppState)
  : AppState :=
  fold_left (fun acc step => applyOp step acc) steps st.

(** The position is a valid index, so the sequence is not empty. *)
Definition validHistory (st : AppState) : Prop :=
  0 <= historyIndex st <= Z.of_nat (length (history st)) - 1.

(** ** Sample inputs *)

Definition fileA : File :=
  {| fileName := "a.png"; fileType := "image/png"; fileBits := "AAAA" |}.
Definition fileB : File :=
  {| fileName := "b.png"; fileType := "image/png"; fileBits := "BBBB" |}.
Definition fileC : File :=
  {| fileName := "c.png"; fileType := "image/png"; fileBits := "CCCC" |}.

Definition pngBlob : Blob :=
  {| mimeType := Some "image/png"; data := Some "iVBORw0KGgo=" |}.

Definition imageReply : GenerateContentResponse :=
  {| promptFeedback := None;
     candidates :=
       Some [ {| content :=
                   Some {| parts := Some [ {| inlineData := Some pngBlob;
                                              text := None |} ] |};
                 finishReason := Some "STOP" |} ];
     responseText := None |}.

(** A world in which nothing goes wrong: the reader yields a data URL made
    of the file's type and bits, the service always returns an image,
    [JSON.parse] knows the one text [null]. *)
Definition sampleWorld : World :=
  {| newGoogleGenAI := inr tt;
     readAsDataURL := fun file =>
       inr ("data:" +:+ fileType file +:+ ";base64," +:+ fileBits file);
     serviceReply := fun _ => inr imageReply;
     JSON_parse := fun s =>
       if String.eqb s "null" then inr JNull
       else inl (JsError "Unexpected token");
     numberToString := fun _ => "0";
     stringToNumber := fun _ => nan;
     atob := fun s => inr s;
     newFile := fun bits name type =>
       {| fileName := name; fileType := type; fileBits := bits |};
     dateNow := 0;
     imgMounted := true;
     getContext2d := true;
     toDataURL := fun type => inr ("data:" +:+ type +:+ ";base64,AAAA") |}.

(** A refusal: a block reason with its message, no candidates, and some
    commentary as text. *)
Definition blockedTextReply : GenerateContentResponse :=
  {| promptFeedback :=
       Some {| blockReason := Some "SAFETY";
               blockReasonMessage := Some "Unsafe content." |};
     candidates := None;
     responseText := Some "I cannot help with that." |}.

(** An image part together with a block reason. *)
Definition blockedImageReply : GenerateContentResponse :=
  {| promptFeedback :=
       Some {| blockReason := Some "SAFETY"; blockReasonMessage := None |};
     candidates := candidates imageReply;
     responseText := None |}.

(** An image part after some text, with a finish reason other than STOP. *)
Definition stoppedImageReply : GenerateContentResponse :=
  {| promptFeedback :=
       Some {| blockReason := None;
               blockReasonMessage := Some "stray message" |};
     candidates :=
       Some [ {| content :=
                   Some {| parts :=
                             Some [ textPart "Here is your image.";
                                    {| inlineData := Some pngBlob;
                                       text := None |} ] |};
                 finishReason := Some "MAX_TOKENS" |} ];
     responseText := Some "Here is your image." |}.

(** ** Typed faces *)

(** A parsed entry that is a [BoundingBox]: an object whose [x], [y],
    [width] and [height] are numbers. *)
Definition asBoundingBox (face : Json) : option BoundingBox :=
  match face with
  | JObj props =>
      match lookupProp "x" props, lookupProp "y" props,
            lookupProp "width" props, lookupProp "height" props with
      | Some (JNum fx), Some (JNum fy), Some (JNum fw), Some (JNum fh) =>
          Some {| x := fx; y := fy; width := fw; height := fh |}
      | _, _, _, _ => None
      end
  | _ => None
  end.

Definition isBoundingBox (face : Json) : bool :=
  match asBoundingBox face with
  | Some _ => true
  | None => false
  end.

(** All four fields lie within [0.0, 1.0]. *)
Definition withinUnit (box : BoundingBox) : bool :=
  (PrimFloat.leb 0 (x box) && PrimFloat.leb (x box) 1)
  && (PrimFloat.leb 0 (y box) && PrimFloat.leb (y box) 1)
  && (PrimFloat.leb 0 (width box) && PrimFloat.leb (width box) 1)
  && (PrimFloat.leb 0 (height box) && PrimFloat.leb (height box) 1).

Definition faceWithinUnit (face : Json) : bool :=
  match asBoundingBox face with
  | Some box => withinUnit box
  | None => false
  end.

Definition boxJson (box : BoundingBox) : Json :=
  JObj [("x", JNum (x box)); ("y", JNum (y box));
        ("width", JNum (width box)); ("height", JNum (height box))].

Definition quoted (s : string) : string := dquote +:+ s +:+ dquote.

(** The two faces of the specification's example, as text and parsed. *)
Definition insideFace : BoundingBox :=
  {| x := 0.1; y := 0.1; width := 0.2; height := 0.2 |}.

Definition outsideFace : BoundingBox :=
  {| x := 1.5; y := 0.1; width := 0.1; height := 0.1 |}.

Definition twoFacesText : string :=
  "{" +:+ quoted "faces" +:+ ":[{"
  +:+ quoted "x" +:+ ":0.1," +:+ quoted "y" +:+ ":0.1,"
  +:+ quoted "width" +:+ ":0.2," +:+ quoted "height" +:+ ":0.2},{"
  +:+ quoted "x" +:+ ":1.5," +:+ quoted "y" +:+ ":0.1,"
  +:+ quoted "width" +:+ ":0.1," +:+ quoted "height" +:+ ":0.1}]}".

Definition twoFacesJson : Json :=
  JObj [("faces", JArr [boxJson insideFace; boxJson outsideFace])].

Definition textReply (txt : string) : GenerateContentResponse :=
  {| promptFeedback := None;
     candidates :=
       Some [ {| content := Some {| parts := Some [textPart txt] |};
                 finishReason := Some "STOP" |} ];
     responseText := Some txt |}.

Definition nullFaceText : string := "{" +:+ quoted "faces" +:+ ":[null]}".

(** [sampleWorld] with a service that answers with the text [txt], and a
    [JSON.parse] that knows four texts: the two faces above, a face list
    holding [null], [null] itself, and an empty object. *)
Definition textWorld (txt : string) : World :=
  {| newGoogleGenAI := newGoogleGenAI sampleWorld;
     readAsDataURL := readAsDataURL sampleWorld;
     serviceReply := fun _ => inr (textReply txt);
     JSON_parse := fun s =>
       if String.eqb s twoFacesText then inr twoFacesJson
       else if String.eqb s nullFaceText then
         inr (JObj [("faces", JArr [JNull])])
       else if String.eqb s "null" then inr JNull
       else if String.eqb s "{}" then inr (JObj [])
       else inl (JsError "Unexpected token");
     numberToString := numberToString sampleWorld;
     stringToNumber := stringToNumber sampleWorld;
     atob := atob sampleWorld;
     newFile := newFile sampleWorld;
     dateNow := dateNow sampleWorld;
     imgMounted := imgMounted sampleWorld;
     getContext2d := getContext2d sampleWorld;
     toDataURL := toDataURL sampleWorld |}.

(** The image part [fileToPart] makes of [fileA] in the sample worlds. *)
Definition partA : Part :=
  {| inlineData := Some {| mimeType := Some "image/png";
                           data := Some "AAAA" |};
     text := None |}.

(** The [faces] array of a parsed value, when it has one. *)
Definition facesArray (result : Json) : option (list Json) :=
  match result with
  | JObj props =>
      match lookupProp "faces" props with
      | Some (JArr items) => Some items
      | _ => None
      end
  | _ => None
  end.

(** ** The orchestrated operations *)

Inductive Task : Type :=
  | Retouch
  | Filter (filterPrompt : string)
  | Adjustment (adjustmentPrompt : string)
  | Crop
  | Resize (width height : float)
  | Enhance
  | Ocr
  | FaceDetect
  | BackgroundRemoval.

Definition runTask (w : World) (task : Task) (st : AppState) : Outcome :=
  match task with
  | Retouch => handleGenerate w st
  | Filter filterPrompt => handleApplyFilter w filterPrompt st
  | Adjustment adjustmentPrompt => handleApplyAdjustment w adjustmentPrompt st
  | Crop => handleApplyCrop w st
  | Resize width height => handleApplyResize w width height st
  | Enhance => handleAutoEnhance w st
  | Ocr => handleExtractText w st
  | FaceDetect => handleDetectFaces w st
  | BackgroundRemoval => handleRemoveBackground w st
  end.

(** The tasks that are delegated to the remote model. *)
Definition usesService (task : Task) : bool :=
  match task with
  | Crop | Resize _ _ => false
  | _ => true
  end.

(** [sampleWorld] with a service that refuses every request. *)
Definition failingWorld : World :=
  {| newGoogleGenAI := newGoogleGenAI sampleWorld;
     readAsDataURL := readAsDataURL sampleWorld;
     serviceReply := fun _ => inl (JsError "503 Service Unavailable");
     JSON_parse := JSON_parse sampleWorld;
     numberToString := numberToString sampleWorld;
     stringToNumber := stringToNumber sampleWorld;
     atob := atob sampleWorld;
     newFile := newFile sampleWorld;
     dateNow := dateNow sampleWorld;
     imgMounted := imgMounted sampleWorld;
     getContext2d := getContext2d sampleWorld;
     toDataURL := toDataURL sampleWorld |}.

(** [fileA] uploaded, nothing typed, nothing clicked. *)
Definition uploadedState : AppState := handleImageUpload fileA initialState.

(** [fileA] uploaded and edited once into [fileB], a retouch typed in, a
    point clicked. *)
Definition readyState : AppState :=
  setEditHotspot (Some {| hx := 120; hy := 80 |})
    (setPrompt "remove the person"
       (addImageToHistory fileB uploadedState)).

(** A session after the upload: tasks interleaved with undo and redo. *)
Inductive Action : Type :=
  | Perform (task : Task)
  | UndoAction
  | RedoAction.

Definition act (step : World * Action) (st : AppState) : AppState :=
  match step with
  | (w, Perform task) => fst (runTask w task st)
  | (w, UndoAction) => handleUndo w st
  | (w, RedoAction) => handleRedo w st
  end.

Definition runSession (steps : list (World * Action)) (st : AppState)
  : AppState :=
  fold_left (fun acc step => act step acc) steps st.

(** Pressing undo, or redo, [n] times in a row. *)
Definition undoTimes (w : World) (n : nat) (st : AppState) : AppState :=
  Nat.iter n (handleUndo w) st.

Definition redoTimes (w : World) (n : nat) (st : AppState) : AppState :=
  Nat.iter n (handleRedo w) st.

(** [fileA] edited twice, into [fileB] and then [fileC]. *)
Definition threeStepState : AppState :=
  addImageToHistory fileC (addImageToHistory fileB uploadedState).

(** ** Words for what [trim] does *)

(** A string made of whitespace code points only. *)
Definition allWhitespace (s : string) : Prop :=
  exists points : list (list ascii),
    Forall (fun p => In p whitespace) points
    /\ list_ascii_of_string s = concat points.

Definition startsWithWhitespace (s : string) : bool :=
  match stripAny whitespace (list_ascii_of_string s) with
  | Some _ => true
  | None => false
  end.

Definition endsWithWhitespace (s : string) : bool :=
  match stripAny (map (@rev ascii) whitespace)
          (rev (list_ascii_of_string s)) with
  | Some _ => true
  | None => false
  end.

(** ** Words for what [splitDataUrl] does *)

(** The byte [c] does not occur in [s]. *)
Definition noByte (c : ascii) (s : string) : bool :=
  forallb (fun b => negb (Ascii.eqb b c)) (list_ascii_of_string s).

(** A byte of a MIME type that [splitDataUrl] gives back unchanged: not a
    comma, not a semicolon, not a line feed or carriage return, and not
    the lead byte of the line and paragraph separators. *)
Definition mimeByte (c : ascii) : bool :=
  negb (Ascii.eqb c ",") && negb (Ascii.eqb c ";")
  && negb (Ascii.eqb c (ascii_of_nat 10))
  && negb (Ascii.eqb c (ascii_of_nat 13))
  && negb (Ascii.eqb c (ascii_of_nat 226)).


(** How each handler opens the message of a caught error. *)
Definition failurePrefix (task : Task) : string :=
  match task with
  | Retouch => "Failed to generate the image. "
  | Filter _ => "Failed to apply the filter. "
  | Adjustment _ => "Failed to apply the adjustment. "
  | Crop => "Failed to crop the image. "
  | Resize _ _ => "Failed to resize the image. "
  | Enhance => "Failed to enhance the image. "
  | Ocr => "Failed to extract text. "
  | FaceDetect => "Failed to detect faces. "
  | BackgroundRemoval => "Failed to remove background. "
  end.

(** [sampleWorld] with a reader that fails the way [FileReader] does: its
    [onerror] receives an event, not an [Error]. *)
Definition unreadableWorld : World :=
  {| newGoogleGenAI := newGoogleGenAI sampleWorld;
     readAsDataURL := fun _ => inl NonError;
     serviceReply := serviceReply sampleWorld;
     JSON_parse := JSON_parse sampleWorld;
     numberToString := numberToString sampleWorld;
     stringToNumber := stringToNumber sampleWorld;
     atob := atob sampleWorld;
     newFile := newFile sampleWorld;
     dateNow := dateNow sampleWorld;
     imgMounted := imgMounted sampleWorld;
     getContext2d := getContext2d sampleWorld;
     toDataURL := toDataURL sampleWorld |}.

(** ** Faces of any shape *)

Definition isNull (v : Json) : bool :=
  match v with
  | JNull => true
  | _ => false
  end.

(** [face.k] for an entry that is not [null]. *)
Definition field (face : Json) (k : string) : option Json :=
  match face with
  | JObj props => lookupProp k props
  | _ => None
  end.

(** A field that is missing or holds a primitive: not an array, not an
    object. *)
Definition isPrimitive (v : option Json) : bool :=
  match v with
  | Some (JArr _) | Some (JObj _) => false
  | _ => true
  end.

Definition plainFields (face : Json) : bool :=
  isPrimitive (field face "x") && isPrimitive (field face "y")
  && isPrimitive (field face "width") && isPrimitive (field face "height").

(** [Number(v)] for a field that is missing or holds a primitive. *)
Definition numberOfPrimitive (w : World) (v : option Json) : float :=
  match v with
  | Some JNull => 0
  | Some (JBool true) => 1
  | Some (JBool false) => 0
  | Some (JNum n) => n
  | Some (JStr s) => stringToNumber w s
  | _ => nan
  end.

Definition numberWithinUnit (n : float) : bool :=
  PrimFloat.leb 0 n && PrimFloat.leb n 1.

(** For an entry with plain fields: each of the four, converted to a
    number, lies within [0, 1]. *)
Definition coercedWithinUnit (w : World) (face : Json) : bool :=
  numberWithinUnit (numberOfPrimitive w (field face "x"))
  && numberWithinUnit (numberOfPrimitive w (field face "y"))
  && numberWithinUnit (numberOfPrimitive w (field face "width"))
  && numberWithinUnit (numberOfPrimitive w (field face "height")).

(** An entry whose [x] is an object with an own property [toString], which
    no comparison can convert to a number. *)
Definition hasUnconvertibleX (face : Json) : bool :=
  match field face "x" with
  | Some (JObj props) =>
      match lookupProp "toString" props with
      | Some _ => true
      | None => false
      end
  | _ => false
  end.

(** A reply that breaks every rule of the validator and still has text. *)
Definition blockedOcrReply : GenerateContentResponse :=
  {| promptFeedback :=
       Some {| blockReason := Some "SAFETY"; blockReasonMessage := None |};
     candidates := Some [ {| content := None;
                             finishReason := Some "SAFETY" |} ];
     responseText := Some "INVOICE 42" |}.

(** [sampleWorld] with a service that answers with [reply]. *)
Definition replyWorld (reply : GenerateContentResponse) : World :=
  {| newGoogleGenAI := newGoogleGenAI sampleWorld;
     readAsDataURL := readAsDataURL sampleWorld;
     serviceReply := fun _ => inr reply;
     JSON_parse := JSON_parse sampleWorld;
     numberToString := numberToString sampleWorld;
     stringToNumber := stringToNumber sampleWorld;
     atob := atob sampleWorld;
     newFile := newFile sampleWorld;
     dateNow := dateNow sampleWorld;
     imgMounted := imgMounted sampleWorld;
     getContext2d := getContext2d sampleWorld;
     toDataURL := toDataURL sampleWorld |}.

(** ** The panels *)

(** [components/EnhancePanel.tsx]. The slider values are the integers the
    range inputs deliver, between -100 and 100. *)
Module EnhancePanel.

Record Sliders : Type := {
  brightness : Z;
  contrast : Z;
  saturation : Z;
  sharpness : Z
}.

Definition presets : list (string * string) :=
  [ ("Blur Background",
     "Apply a realistic depth-of-field effect, making the background blurry while keeping the main subject in sharp focus.");
    ("Enhance Details",
     "Slightly enhance the sharpness and details of the image without making it look unnatural.");
    ("Warmer Lighting",
     "Adjust the color temperature to give the image warmer, golden-hour style lighting.");
    ("Studio Light",
     "Add dramatic, professional studio lighting to the main subject.") ].

(** [if (value !== 0) adjustments.push(...)] for one slider. *)
Definition describe (value : Z) (what : string) : list string :=
  if value =? 0 then []
  else
    [ (if 0 <? value then "increase" else "decrease") +:+ " " +:+ what
        +:+ " by " +:+ NilZero.string_of_uint (N.to_uint (Z.abs_N value))
        +:+ "%" ].

Definition adjustments (s : Sliders) : list string :=
  describe (brightness s) "brightness"
  ++ describe (contrast s) "contrast"
  ++ describe (saturation s) "color saturation"
  ++ describe (sharpness s) "sharpness".

Definition resetSliders : Sliders :=
  {| brightness := 0; contrast := 0; saturation := 0; sharpness := 0 |}.

Definition hasSliderChanged (s : Sliders) : bool :=
  negb (brightness s =? 0) || negb (contrast s =? 0)
  || negb (saturation s =? 0) || negb (sharpness s =? 0).

(** The next slider state and the text passed to [onApplyAdjustment], if
    it is called. *)
Definition handleApplySliders (s : Sliders) : Sliders * option string :=
  match adjustments s with
  | [] => (s, None)
  | first :: others =>
      (resetSliders,
       Some ("Apply the following photorealistic adjustments to the image: "
               +:+ String.concat ", " (first :: others) +:+ "."))
  end.

Definition handlePresetClick (prompt : string) : option string :=
  Some prompt.

(** The two kinds of button that reach [onApplyAdjustment]. *)
Inductive Click : Type :=
  | Preset (number : nat)
  | ApplySliders.

Definition click (c : Click) (s : Sliders) : Sliders * option string :=
  match c with
  | Preset number =>
      (s, match nth_error presets number with
          | Some (_, prompt) => handlePresetClick prompt
          | None => None
          end)
  | ApplySliders => handleApplySliders s
  end.

End EnhancePanel.

(** [GenerateVideoPanel]: the text passed to [onGenerateVideo], if it is
    called. *)
Module GenerateVideoPanel.

Definition handleGenerate (prompt : string) : option string :=
  if truthy_string (Some (trim prompt)) then Some (trim prompt) else None.

End GenerateVideoPanel.

(** [sampleWorld] on a browser whose canvas gives no 2d context. *)
Definition contextlessWorld : World :=
  {| newGoogleGenAI := newGoogleGenAI sampleWorld;
     readAsDataURL := readAsDataURL sampleWorld;
     serviceReply := serviceReply sampleWorld;
     JSON_parse := JSON_parse sampleWorld;
     numberToString := numberToString sampleWorld;
     stringToNumber := stringToNumber sampleWorld;
     atob := atob sampleWorld;
     newFile := newFile sampleWorld;
     dateNow := dateNow sampleWorld;
     imgMounted := imgMounted sampleWorld;
     getContext2d := false;
     toDataURL := toDataURL sampleWorld |}.

(** [threeStepState] with a selection of 40 by 30 pixels completed. *)
Definition croppingState : AppState :=
  setCompletedCrop
    (Some {| cropX := 10; cropY := 10; cropWidth := 40; cropHeight := 30 |})
    threeStepState.

(** ** Why a task fails *)

(** The message of the local check that stops a handler before its [try]
    block, when one does. *)
Definition rejection (w : World) (task : Task) (st : AppState)
  : option string :=
  match task with
  | Retouch =>
      match currentImage st with
      | None => Some "No image loaded to edit."
      | Some _ =>
          if negb (truthy_string (Some (trim (prompt st)))) then
            Some "Please enter a description for your edit."
          else
            match editHotspot st with
            | None =>
                Some "Please click on the image to select an area to edit."
            | Some _ => None
            end
      end
  | Filter _ =>
      match currentImage st with
      | None => Some "No image loaded to apply a filter to."
      | Some _ => None
      end
  | Adjustment _ =>
      match currentImage st with
      | None => Some "No image loaded to apply an adjustment to."
      | Some _ => None
      end
  | Crop => None
  | Resize _ _ =>
      match (if imgMounted w then currentImage st else None) with
      | None => Some "Image reference not found for resizing."
      | Some _ => None
      end
  | Enhance =>
      match currentImage st with
      | None => Some "No image loaded to enhance."
      | Some _ => None
      end
  | Ocr =>
      match currentImage st with
      | None => Some "No image loaded to extract text from."
      | Some _ => None
      end
  | FaceDetect =>
      match currentImage st with
      | None => Some "No image loaded to detect faces in."
      | Some _ => None
      end
  | BackgroundRemoval =>
      match currentImage st with
      | None => Some "No image loaded to remove background from."
      | Some _ => None
      end
  end.

(** A computation with its value forgotten: whether it threw, and what it
    sent. *)
Definition forget {A : Type} (m : IO A) : IO unit :=
  match m with
  | (inl err, sent) => (inl err, sent)
  | (inr _, sent) => (inr tt, sent)
  end.

(** The [try] block of a handler, when the handler reaches it: the calls
    in it that can throw (the service function with its client, file
    reader, request and response validation, or the canvas, and then the
    decoding of the data URL), in their order. *)
Definition attempt (w : World) (task : Task) (st : AppState)
  : option (IO unit) :=
  match task with
  | Retouch =>
      match currentImage st, editHotspot st with
      | Some image, Some hotspot =>
          if truthy_string (Some (trim (prompt st))) then
            Some (forget
                    (editedImageUrl <-
                       generateEditedImage w image (prompt st) hotspot ;;
                     lift (dataURLtoFile w editedImageUrl
                             (timestamped w "edited-"))))
          else None
      | _, _ => None
      end
  | Filter filterPrompt =>
      match currentImage st with
      | Some image =>
          Some (forget
                  (filteredImageUrl <-
                     generateFilteredImage w image filterPrompt ;;
                   lift (dataURLtoFile w filteredImageUrl
                           (timestamped w "filtered-"))))
      | None => None
      end
  | Adjustment adjustmentPrompt =>
      match currentImage st with
      | Some image =>
          Some (forget
                  (adjustedImageUrl <-
                     generateAdjustedImage w image adjustmentPrompt ;;
                   lift (dataURLtoFile w adjustedImageUrl
                           (timestamped w "adjusted-"))))
      | None => None
      end
  | Crop =>
      match completedCrop st with
      | Some c =>
          if truthy_number (cropWidth c) && truthy_number (cropHeight c)
             && imgMounted w
          then
            Some (forget
                    (croppedImageUrl <- lift (getCroppedImg w) ;;
                     lift (dataURLtoFile w croppedImageUrl
                             (timestamped w "cropped-"))))
          else None
      | None => None
      end
  | Resize _ _ =>
      match (if imgMounted w then currentImage st else None) with
      | Some image =>
          Some (forget
                  (resizedImageUrl <-
                     lift (if getContext2d w then
                             toDataURL w
                               (if truthy_string (Some (fileType image))
                                then fileType image else "image/png")
                           else inl (JsError "Could not get canvas context")) ;;
                   lift (dataURLtoFile w resizedImageUrl
                           (timestamped w "resized-"))))
      | None => None
      end
  | Enhance =>
      match currentImage st with
      | Some image =>
          Some (forget
                  (enhancedImageUrl <- generateEnhancedImage w image ;;
                   lift (dataURLtoFile w enhancedImageUrl
                           (timestamped w "enhanced-"))))
      | None => None
      end
  | Ocr =>
      match currentImage st with
      | Some image => Some (forget (extractTextFromImage w image))
      | None => None
      end
  | FaceDetect =>
      match currentImage st with
      | Some image => Some (forget (detectFaces w image))
      | None => None
      end
  | BackgroundRemoval =>
      match currentImage st with
      | Some image =>
          Some (forget
                  (resultImageUrl <- removeBackground w image ;;
                   lift (dataURLtoFile w resultImageUrl
                           (timestamped w "bg-removed-"))))
      | None => None
      end
  end.

(** * Properties *)

(** ** Arrays *)

Lemma slice0_valid {A : Type} (l : list A) (i : Z) :
  0 <= i <= Z.of_nat (length l) - 1 ->
  slice0 l (i + 1) = take (Z.to_nat i + 1) l.
Proof.
  intros Hi. unfold slice0.
  destruct (Z.ltb_spec (i + 1) 0) as [Hneg | _]; [lia |].
  f_equal. lia.
Qed.

Lemma slice0_length {A : Type} (l : list A) (e : Z) :
  (length (slice0 l e) <= length l)%nat.
Proof. unfold slice0. rewrite length_take. lia. Qed.

Lemma index_0_app_take {A : Type} (l : list A) (n : nat) (a : A) :
  (0 < n)%nat -> l <> [] -> index (take n l ++ [a]) 0 = index l 0.
Proof.
  intros Hn Hl. unfold index. simpl.
  destruct l as [| b l]; [congruence |].
  destruct n as [| n]; [lia | reflexivity].
Qed.

(** ** The history manager *)

Lemma history_addImageToHistory (f : File) (st : AppState) :
  history (addImageToHistory f st)
  = slice0 (history st) (historyIndex st + 1) ++ [f].
Proof. reflexivity. Qed.

Lemma historyIndex_addImageToHistory (f : File) (st : AppState) :
  historyIndex (addImageToHistory f st)
  = Z.of_nat (length (history (addImageToHistory f st))) - 1.
Proof. reflexivity. Qed.

Lemma addImageToHistory_valid (f : File) (st : AppState) :
  validHistory (addImageToHistory f st).
Proof.
  unfold validHistory. rewrite historyIndex_addImageToHistory.
  rewrite history_addImageToHistory, length_app. simpl. lia.
Qed.

Lemma addImageToHistory_original (f : File) (st : AppState) :
  validHistory st ->
  originalImage (addImageToHistory f st) = originalImage st.
Proof.
  intros Hv. unfold originalImage. rewrite history_addImageToHistory.
  rewrite (slice0_valid _ _ Hv).
  apply index_0_app_take; [lia |].
  unfold validHistory in Hv. destruct (history st); simpl in *; [lia | congruence].
Qed.

Lemma handleUndo_history (w : World) (st : AppState) :
  history (handleUndo w st) = history st.
Proof. unfold handleUndo. destruct (canUndo st); reflexivity. Qed.

Lemma handleRedo_history (w : World) (st : AppState) :
  history (handleRedo w st) = history st.
Proof. unfold handleRedo. destruct (canRedo st); reflexivity. Qed.

Lemma handleUndo_index (w : World) (st : AppState) :
  historyIndex (handleUndo w st)
  = if 0 <? historyIndex st then historyIndex st - 1 else historyIndex st.
Proof. unfold handleUndo, canUndo. destruct (0 <? historyIndex st); reflexivity. Qed.

Lemma handleRedo_index (w : World) (st : AppState) :
  historyIndex (handleRedo w st)
  = if historyIndex st <? Z.of_nat (length (history st)) - 1
    then historyIndex st + 1 else historyIndex st.
Proof.
  unfold handleRedo, canRedo.
  destruct (historyIndex st <? Z.of_nat (length (history st)) - 1); reflexivity.
Qed.

Lemma applyOp_valid (step : World * HistoryOp) (st : AppState) :
  validHistory st -> validHistory (applyOp step st).
Proof.
  intros Hv. destruct step as [w [f | |]]; simpl.
  - apply addImageToHistory_valid.
  - unfold validHistory in *.
    rewrite handleUndo_index, handleUndo_history.
    destruct (Z.ltb_spec 0 (historyIndex st)); lia.
  - unfold validHistory in *.
    rewrite handleRedo_index, handleRedo_history.
    destruct (Z.ltb_spec (historyIndex st) (Z.of_nat (length (history st)) - 1)); lia.
Qed.

Lemma applyOp_original (step : World * HistoryOp) (st : AppState) :
  validHistory st -> originalImage (applyOp step st) = originalImage st.
Proof.
  intros Hv. destruct step as [w [f | |]]; simpl.
  - apply addImageToHistory_original, Hv.
  - unfold originalImage. now rewrite handleUndo_history.
  - unfold originalImage. now rewrite handleRedo_history.
Qed.

Lemma runOps_invariant (steps : list (World * HistoryOp)) (st : AppState) :
  validHistory st ->
  validHistory (runOps steps st)
  /\ originalImage (runOps steps st) = originalImage st.
Proof.
  revert st. induction steps as [| step steps IH]; intros st Hv; simpl.
  - split; [exact Hv | reflexivity].
  - destruct (IH (applyOp step st) (applyOp_valid step st Hv)) as [Hv' Ho].
    split; [exact Hv' |].
    rewrite Ho. apply applyOp_original, Hv.
Qed.

Lemma addImageToHistory_truncates (f : File) (st : AppState) :
  validHistory st ->
  history (addImageToHistory f st)
  = take (Z.to_nat (historyIndex st) + 1) (history st) ++ [f]
  /\ historyIndex (addImageToHistory f st) = historyIndex st + 1.
Proof.
  intros Hv. rewrite historyIndex_addImageToHistory.
  rewrite history_addImageToHistory, (slice0_valid _ _ Hv).
  split; [reflexivity |].
  unfold validHistory in Hv.
  rewrite length_app, length_take. simpl. lia.
Qed.

(** C1. Appending in a history state keeps the entries up to the position,
    discards every entry past it, inserts the new artifact and makes the
    position the new last index. In particular, starting from history [A]
    at position 0, append(B), undo(), append(C) leaves history [A; C] at
    position 1, B being discarded. *)
Theorem append_after_undo_discards_redo
  (w : World) (st : AppState) (A B C : File) :
  (0 <= historyIndex st <= Z.of_nat (length (history st)) - 1 ->
   history (addImageToHistory C st)
   = take (Z.to_nat (historyIndex st) + 1) (history st) ++ [C]
   /\ historyIndex (addImageToHistory C st)
      = Z.of_nat (length (history (addImageToHistory C st))) - 1
   /\ historyIndex (addImageToHistory C st) = historyIndex st + 1)
  /\ (history st = [A] ->
      historyIndex st = 0 ->
      let final :=
        addImageToHistory C (handleUndo w (addImageToHistory B st)) in
      history final = [A; C] /\ historyIndex final = 1).
Proof.
  split.
  - intros Hv. destruct (addImageToHistory_truncates C st Hv) as [Hh Hi].
    split; [exact Hh |]. split; [| exact Hi].
    apply historyIndex_addImageToHistory.
  - intros Hh Hi final. subst final.
    rewrite history_addImageToHistory, historyIndex_addImageToHistory.
    rewrite history_addImageToHistory.
    rewrite handleUndo_history, handleUndo_index.
    rewrite historyIndex_addImageToHistory, history_addImageToHistory.
    rewrite Hh, Hi. split; reflexivity.
Qed.

Lemma append_after_undo_discards_redo_witness :
  let final :=
    addImageToHistory fileC
      (handleUndo sampleWorld (addImageToHistory fileB uploadedState)) in
  history final = [fileA; fileC] /\ historyIndex final = 1.
Proof.
  exact (proj2 (append_after_undo_discards_redo sampleWorld uploadedState
                  fileA fileB fileC) eq_refl eq_refl).
Defined.

(** C2. After an image upload has initialised the history, every finite
    sequence of append, undo and redo operations leaves the position within
    [0, length - 1], the length at least 1, and the uploaded original still
    at index 0. *)
Theorem history_invariant
  (file : File) (st0 : AppState) (steps : list (World * HistoryOp)) :
  let st := runOps steps (handleImageUpload file st0) in
  0 <= historyIndex st <= Z.of_nat (length (history st)) - 1
  /\ (1 <= length (history st))%nat
  /\ index (history st) 0 = Some file.
Proof.
  intros st. subst st.
  assert (Hv : validHistory (handleImageUpload file st0))
    by (unfold validHistory; simpl; lia).
  destruct (runOps_invariant steps _ Hv) as [Hv' Ho].
  split; [exact Hv' |]. split.
  - unfold validHistory in Hv'. lia.
  - exact Ho.
Qed.

(** C5. In every history state (the position being a valid index), undo is
    a no-op at position 0 and otherwise lowers the position by exactly one;
    redo is a no-op at the last index and otherwise raises the position by
    exactly one; neither touches the sequence; canUndo holds exactly when
    the position is above 0 and canRedo exactly when it is below the last
    index. *)
Theorem undo_redo_contract (w : World) (st : AppState) :
  0 <= historyIndex st <= Z.of_nat (length (history st)) - 1 ->
  (historyIndex st = 0 -> handleUndo w st = st)
  /\ (historyIndex st <> 0 ->
      historyIndex (handleUndo w st) = historyIndex st - 1
      /\ history (handleUndo w st) = history st)
  /\ (historyIndex st = Z.of_nat (length (history st)) - 1 ->
      handleRedo w st = st)
  /\ (historyIndex st <> Z.of_nat (length (history st)) - 1 ->
      historyIndex (handleRedo w st) = historyIndex st + 1
      /\ history (handleRedo w st) = history st)
  /\ (canUndo st = true <-> historyIndex st > 0)
  /\ (canRedo st = true <->
      historyIndex st < Z.of_nat (length (history st)) - 1).
Proof.
  intros Hv. repeat split.
  - intros H0. unfold handleUndo, canUndo. rewrite H0. reflexivity.
  - rewrite handleUndo_index.
    destruct (Z.ltb_spec 0 (historyIndex st)); lia.
  - apply handleUndo_history.
  - intros Hl. unfold handleRedo, canRedo. rewrite Hl at 1.
    rewrite Z.ltb_irrefl. reflexivity.
  - rewrite handleRedo_index.
    destruct (Z.ltb_spec (historyIndex st) (Z.of_nat (length (history st)) - 1)); lia.
  - apply handleRedo_history.
  - unfold canUndo. rewrite Z.ltb_lt. lia.
  - unfold canUndo. rewrite Z.ltb_lt. lia.
  - unfold canRedo. rewrite Z.ltb_lt. lia.
  - unfold canRedo. rewrite Z.ltb_lt. lia.
Qed.

Lemma undo_redo_contract_witness :
  let st :=
    addImageToHistory fileB (handleImageUpload fileA initialState) in
  historyIndex (handleUndo sampleWorld st) = 0
  /\ handleRedo sampleWorld st = st.
Proof.
  intros st.
  assert (Hv : 0 <= historyIndex st <= Z.of_nat (length (history st)) - 1)
    by (subst st; vm_compute; split; discriminate).
  destruct (undo_redo_contract sampleWorld st Hv)
    as (_ & Hundo & Hredo & _).
  split.
  - destruct Hundo as [Hi _]; [subst st; vm_compute; discriminate |].
    rewrite Hi. reflexivity.
  - apply Hredo. reflexivity.
Defined.

(** ** The response validator *)

Lemma find_hasInlineData_some (ps : list Part) :
  existsb hasInlineData ps = true ->
  exists before part blob after,
    ps = before ++ part :: after
    /\ forallb (fun p => negb (hasInlineData p)) before = true
    /\ inlineData part = Some blob
    /\ List.find hasInlineData ps = Some part.
Proof.
  induction ps as [| p ps IH]; simpl; [discriminate |].
  intros Hex. destruct (hasInlineData p) eqn:Hp.
  - unfold hasInlineData in Hp.
    destruct (inlineData p) as [blob |] eqn:Hb; [| discriminate].
    exists [], p, blob, ps. repeat split; assumption.
  - simpl in Hex. destruct (IH Hex) as (before & part & blob & after & -> & Hall & Hb & Hf).
    exists (p :: before), part, blob, after.
    repeat split; simpl; [now rewrite Hp | assumption | assumption].
Qed.

Lemma find_hasInlineData_none (ps : list Part) :
  existsb hasInlineData ps = false -> List.find hasInlineData ps = None.
Proof.
  induction ps as [| p ps IH]; simpl; [reflexivity |].
  destruct (hasInlineData p); simpl; [discriminate | exact IH].
Qed.

(** A block reason, when present, decides the outcome before anything else
    in the response is looked at. *)
Lemma handleApiResponse_blocked
  (response : GenerateContentResponse) (context reason : string) :
  promptBlockReason response = Some reason ->
  reason <> "" ->
  handleApiResponse response context
  = inl (JsError
           ("Request was blocked. Reason: " +:+ reason +:+ ". "
              +:+ match promptFeedback response with
                  | Some feedback =>
                      match blockReasonMessage feedback with
                      | Some m => m
                      | None => ""
                      end
                  | None => ""
                  end)).
Proof.
  intros Hr Hne. unfold handleApiResponse. rewrite Hr.
  destruct reason as [| c reason]; [congruence |]. simpl.
  destruct (promptFeedback response) as [feedback |]; [| reflexivity].
  destruct (blockReasonMessage feedback) as [[| c' m] |]; reflexivity.
Qed.

(** C4. A response that carries a block reason and no image part makes
    the validator fail with the blocked error built from the provided
    reason and message, whatever text, candidates or finish reason the
    response also holds. *)
Theorem blocked_without_image
  (response : GenerateContentResponse) (context reason : string)
  (feedback : PromptFeedback) :
  promptFeedback response = Some feedback ->
  blockReason feedback = Some reason ->
  reason <> "" ->
  imagePartFromResponse response = None ->
  handleApiResponse response context
  = inl (JsError
           ("Request was blocked. Reason: " +:+ reason +:+ ". "
              +:+ match blockReasonMessage feedback with
                  | Some m => m
                  | None => ""
                  end)).
Proof.
  intros Hf Hr Hne _.
  rewrite (handleApiResponse_blocked response context reason).
  - rewrite Hf. reflexivity.
  - unfold promptBlockReason. rewrite Hf. exact Hr.
  - exact Hne.
Qed.

Lemma blocked_without_image_witness :
  handleApiResponse blockedTextReply "filter"
  = inl (JsError "Request was blocked. Reason: SAFETY. Unsafe content.").
Proof.
  refine (blocked_without_image blockedTextReply "filter" "SAFETY"
            {| blockReason := Some "SAFETY";
               blockReasonMessage := Some "Unsafe content." |}
            eq_refl eq_refl _ eq_refl).
  discriminate.
Defined.

(** The claim that an image part always wins fails: with a block reason set,
    the response is rejected although its first candidate holds an image. *)
Lemma image_part_loses_to_block_reason :
  imagePartFromResponse blockedImageReply
  = Some {| inlineData := Some pngBlob; text := None |}
  /\ handleApiResponse blockedImageReply "edit"
     = inl (JsError "Request was blocked. Reason: SAFETY. ").
Proof. split; reflexivity. Qed.

(** C3, amended. Take a response whose first candidate holds an image
    part. Without a block reason the validator accepts it and returns the
    data URL of the first such part, with its declared MIME type, whatever
    the finish reason, the accompanying text or a stray block message may
    be. With a block reason the validator rejects it as blocked: the block
    reason takes precedence over the image. *)
Theorem image_part_wins_unless_blocked
  (response : GenerateContentResponse) (context : string) (ps : list Part) :
  firstParts response = Some ps ->
  existsb hasInlineData ps = true ->
  (truthy_string (promptBlockReason response) = false ->
   exists before part blob after,
     ps = before ++ part :: after
     /\ forallb (fun p => negb (hasInlineData p)) before = true
     /\ inlineData part = Some blob
     /\ handleApiResponse response context
        = inr ("data:" +:+ template (mimeType blob) +:+ ";base64,"
                 +:+ template (data blob)))
  /\ (forall reason,
        promptBlockReason response = Some reason ->
        reason <> "" ->
        exists message,
          handleApiResponse response context
          = inl (JsError
                   ("Request was blocked. Reason: " +:+ reason +:+ ". "
                      +:+ message))).
Proof.
  intros Hps Hex. split.
  - intros Hblock.
    destruct (find_hasInlineData_some ps Hex)
      as (before & part & blob & after & Hsplit & Hall & Hblob & Hfind).
    exists before, part, blob, after. repeat split; try assumption.
    unfold handleApiResponse. rewrite Hblock.
    unfold imagePartFromResponse. rewrite Hps, Hfind, Hblob. reflexivity.
  - intros reason Hr Hne. eexists.
    apply (handleApiResponse_blocked response context reason Hr Hne).
Qed.

Lemma image_part_wins_unless_blocked_witness :
  exists before part blob after,
    [ textPart "Here is your image.";
      {| inlineData := Some pngBlob; text := None |} ]
    = before ++ part :: after
    /\ forallb (fun p => negb (hasInlineData p)) before = true
    /\ inlineData part = Some blob
    /\ handleApiResponse stoppedImageReply "edit"
       = inr ("data:" +:+ template (mimeType blob) +:+ ";base64,"
                +:+ template (data blob)).
Proof.
  exact (proj1 (image_part_wins_unless_blocked stoppedImageReply "edit"
                  [ textPart "Here is your image.";
                    {| inlineData := Some pngBlob; text := None |} ]
                  eq_refl eq_refl) eq_refl).
Defined.

Example stopped_image_reply_accepted :
  handleApiResponse stoppedImageReply "edit"
  = inr "data:image/png;base64,iVBORw0KGgo=".
Proof. reflexivity. Qed.

Example no_image_stopped :
  handleApiResponse
    {| promptFeedback := None;
       candidates := Some [ {| content := None;
                               finishReason := Some "SAFETY" |} ];
       responseText := None |} "filter"
  = inl (JsError "Image generation for filter stopped unexpectedly. Reason: SAFETY. This often relates to safety settings.").
Proof. reflexivity. Qed.

Example no_image_text_only :
  handleApiResponse (textReply " Sorry, no. ") "adjustment"
  = inl (JsError
           ("The AI model did not return an image for the adjustment. The model responded with text: "
              +:+ quoted "Sorry, no.")).
Proof. reflexivity. Qed.

(** ** Face detection *)

Lemma faceInRange_typed (w : World) (face : Json) :
  isBoundingBox face = true ->
  faceInRange w face = inr (faceWithinUnit face).
Proof.
  unfold isBoundingBox, faceWithinUnit, asBoundingBox.
  destruct face as [| | | | | props]; try discriminate.
  destruct (lookupProp "x" props) as [[| | fx | | |] |] eqn:Hx; try discriminate.
  destruct (lookupProp "y" props) as [[| | fy | | |] |] eqn:Hy; try discriminate.
  destruct (lookupProp "width" props) as [[| | fw | | |] |] eqn:Hw; try discriminate.
  destruct (lookupProp "height" props) as [[| | fh | | |] |] eqn:Hh; try discriminate.
  intros _. unfold faceInRange, getProp, withinUnit, inUnitRange.
  rewrite Hx, Hy, Hw, Hh. simpl.
  destruct (PrimFloat.leb 0 fx && PrimFloat.leb fx 1); simpl; [| reflexivity].
  destruct (PrimFloat.leb 0 fy && PrimFloat.leb fy 1); simpl; [| reflexivity].
  destruct (PrimFloat.leb 0 fw && PrimFloat.leb fw 1); simpl; reflexivity.
Qed.

Lemma filterThrowing_typed (w : World) (items : list Json) :
  forallb isBoundingBox items = true ->
  filterThrowing (faceInRange w) items
  = inr (List.filter faceWithinUnit items).
Proof.
  induction items as [| face items IH]; simpl; [reflexivity |].
  intros Hall. apply andb_prop in Hall. destruct Hall as [Hface Hrest].
  rewrite (faceInRange_typed w face Hface), (IH Hrest). reflexivity.
Qed.

(** Up to the answer of the service, [detectFaces] is its request followed
    by the guarded parse. *)
Lemma detectFaces_reply
  (w : World) (image : File) (part : Part)
  (response : GenerateContentResponse) :
  newGoogleGenAI w = inr tt ->
  fileToPart w image = inr part ->
  serviceReply w (detectFacesRequest part) = inr response ->
  detectFaces w image
  = (match detectFacesTry w response with
     | inr found => inr found
     | inl _ =>
         inl (JsError "The AI model returned an invalid format for face detection.")
     end, [detectFacesRequest part]).
Proof.
  intros Hc Hp Hs. unfold detectFaces, bind, lift, generateContent.
  rewrite Hc, Hp, Hs. simpl.
  destruct (detectFacesTry w response); reflexivity.
Qed.

(** C6. When the parsed text holds a face list whose entries are bounding
    boxes, face detection returns exactly the entries whose x, y, width and
    height all lie within [0.0, 1.0], in their order; an entry with a
    coordinate outside that range is left out. *)
Theorem detected_faces_within_unit
  (w : World) (image : File) (part : Part)
  (response : GenerateContentResponse) (txt : string)
  (props : list (string * Json)) (items : list Json) :
  newGoogleGenAI w = inr tt ->
  fileToPart w image = inr part ->
  serviceReply w (detectFacesRequest part) = inr response ->
  responseText response = Some txt ->
  JSON_parse w (trim txt) = inr (JObj props) ->
  lookupProp "faces" props = Some (JArr items) ->
  forallb isBoundingBox items = true ->
  fst (detectFaces w image) = inr (List.filter faceWithinUnit items).
Proof.
  intros Hc Hp Hs Ht Hj Hf Hall.
  rewrite (detectFaces_reply w image part response Hc Hp Hs). simpl.
  unfold detectFacesTry. rewrite Ht, Hj. simpl. rewrite Hf. simpl.
  rewrite (filterThrowing_typed w items Hall). reflexivity.
Qed.

Lemma detected_faces_within_unit_witness :
  fst (detectFaces (textWorld twoFacesText) fileA) = inr [boxJson insideFace].
Proof.
  exact (detected_faces_within_unit (textWorld twoFacesText) fileA partA
           (textReply twoFacesText) twoFacesText
           [("faces", JArr [boxJson insideFace; boxJson outsideFace])]
           [boxJson insideFace; boxJson outsideFace]
           eq_refl eq_refl eq_refl eq_refl eq_refl eq_refl eq_refl).
Defined.

(** C7. When the text of the face-detection response cannot be parsed as
    JSON, the operation throws the invalid-format error instead of
    returning an empty list, and the handler reports it without storing
    any face. *)
Theorem unparsable_faces_raise_invalid_format
  (w : World) (st : AppState) (image : File) (part : Part)
  (response : GenerateContentResponse) (txt : string) (err : Thrown) :
  currentImage st = Some image ->
  newGoogleGenAI w = inr tt ->
  fileToPart w image = inr part ->
  serviceReply w (detectFacesRequest part) = inr response ->
  responseText response = Some txt ->
  JSON_parse w (trim txt) = inl err ->
  fst (detectFaces w image)
  = inl (JsError "The AI model returned an invalid format for face detection.")
  /\ error (fst (handleDetectFaces w st))
     = Some "Failed to detect faces. The AI model returned an invalid format for face detection."
  /\ faces (fst (handleDetectFaces w st)) = [].
Proof.
  intros Hi Hc Hp Hs Ht Hj.
  assert (Hd : detectFaces w image
               = (inl (JsError "The AI model returned an invalid format for face detection."),
                  [detectFacesRequest part])).
  { rewrite (detectFaces_reply w image part response Hc Hp Hs).
    unfold detectFacesTry. rewrite Ht, Hj. reflexivity. }
  split; [rewrite Hd; reflexivity |].
  unfold handleDetectFaces. rewrite Hi, Hd. split; reflexivity.
Qed.

Lemma unparsable_faces_raise_invalid_format_witness :
  let st := handleImageUpload fileA initialState in
  fst (detectFaces (textWorld "not json") fileA)
  = inl (JsError "The AI model returned an invalid format for face detection.")
  /\ error (fst (handleDetectFaces (textWorld "not json") st))
     = Some "Failed to detect faces. The AI model returned an invalid format for face detection."
  /\ faces (fst (handleDetectFaces (textWorld "not json") st)) = [].
Proof.
  exact (unparsable_faces_raise_invalid_format (textWorld "not json")
           (handleImageUpload fileA initialState) fileA partA
           (textReply "not json") "not json" (JsError "Unexpected token")
           eq_refl eq_refl eq_refl eq_refl eq_refl eq_refl).
Defined.

(** The claim that every parsable text without a [faces] array yields the
    empty list fails: the text [null] is valid JSON, has no [faces] field,
    and ends in the invalid-format error. *)
Lemma parsed_null_raises_invalid_format :
  JSON_parse (textWorld "null") (trim "null") = inr JNull
  /\ facesArray JNull = None
  /\ fst (detectFaces (textWorld "null") fileA)
     = inl (JsError "The AI model returned an invalid format for face detection.").
Proof. repeat split; reflexivity. Qed.

(** C10, amended. When the text of the face-detection response parses to
    a value other than [null] that has no [faces] field holding an array,
    the operation returns the empty list and throws nothing; when it parses
    to [null], the operation throws the invalid-format error, as it does on
    a parse failure. *)
Theorem faceless_json_yields_no_faces
  (w : World) (image : File) (part : Part)
  (response : GenerateContentResponse) (txt : string) (result : Json) :
  newGoogleGenAI w = inr tt ->
  fileToPart w image = inr part ->
  serviceReply w (detectFacesRequest part) = inr response ->
  responseText response = Some txt ->
  JSON_parse w (trim txt) = inr result ->
  facesArray result = None ->
  fst (detectFaces w image)
  = match result with
    | JNull =>
        inl (JsError "The AI model returned an invalid format for face detection.")
    | _ => inr []
    end.
Proof.
  intros Hc Hp Hs Ht Hj Hf.
  rewrite (detectFaces_reply w image part response Hc Hp Hs). simpl.
  unfold detectFacesTry. rewrite Ht, Hj.
  destruct result as [| b | n | s | items | props]; try reflexivity.
  simpl in *.
  destruct (lookupProp "faces" props) as [[| b | n | s | items |] |];
    try discriminate; simpl;
    repeat match goal with
           | |- context [if ?c then _ else _] => destruct c
           end; reflexivity.
Qed.

Lemma faceless_json_yields_no_faces_witness :
  fst (detectFaces (textWorld "{}") fileA) = inr [].
Proof.
  exact (faceless_json_yields_no_faces (textWorld "{}") fileA partA
           (textReply "{}") "{}" (JObj [])
           eq_refl eq_refl eq_refl eq_refl eq_refl eq_refl).
Defined.

(** Outside the typed case: an entry that is [null] makes the callback
    throw, and the whole operation ends in the invalid-format error; an
    entry whose fields are all [null] passes the comparisons, [null]
    converting to zero. *)
Example null_face_entry_raises_invalid_format :
  fst (detectFaces (textWorld nullFaceText) fileA)
  = inl (JsError "The AI model returned an invalid format for face detection.").
Proof. reflexivity. Qed.

Example null_fields_pass_the_filter :
  faceInRange sampleWorld
    (JObj [("x", JNull); ("y", JNull); ("width", JNull); ("height", JNull)])
  = inr true.
Proof. reflexivity. Qed.

(** ** The orchestrator *)

Ltac split_attempt :=
  match goal with
  | |- context [match bind ?m ?k with _ => _ end] =>
      destruct (bind m k) as [[?err | ?made] ?sent]
  | |- context [match extractTextFromImage ?w ?i with _ => _ end] =>
      destruct (extractTextFromImage w i) as [[?err | ?made] ?sent]
  | |- context [match detectFaces ?w ?i with _ => _ end] =>
      destruct (detectFaces w i) as [[?err | ?made] ?sent]
  | H : context [match bind ?m ?k with _ => _ end] |- _ =>
      destruct (bind m k) as [[?err | ?made] ?sent]
  | H : context [match extractTextFromImage ?w ?i with _ => _ end] |- _ =>
      destruct (extractTextFromImage w i) as [[?err | ?made] ?sent]
  | H : context [match detectFaces ?w ?i with _ => _ end] |- _ =>
      destruct (detectFaces w i) as [[?err | ?made] ?sent]
  end.

Ltac split_guard :=
  match goal with
  | H : context [match ?c with _ => _ end] |- _ =>
      lazymatch c with
      | bind _ _ => fail
      | extractTextFromImage _ _ => fail
      | detectFaces _ _ => fail
      | _ => destruct c eqn:?
      end
  | H : context [if ?c then _ else _] |- _ => destruct c eqn:?
  end.

Ltac unfold_handlers :=
  unfold handleGenerate, handleApplyFilter, handleApplyAdjustment,
    handleApplyCrop, handleApplyResize, handleAutoEnhance,
    handleExtractText, handleDetectFaces, handleRemoveBackground.

Ltac split_checks :=
  repeat match goal with
         | |- context [match ?c with _ => _ end] =>
             lazymatch c with
             | bind _ _ => fail
             | extractTextFromImage _ _ => fail
             | detectFaces _ _ => fail
             | _ => destruct c eqn:?
             end
         | |- context [if ?c then _ else _] => destruct c eqn:?
         end.

Ltac task_cases task :=
  destruct task; simpl; unfold_handlers; split_checks;
  try split_attempt; simpl;
  repeat match goal with
         | |- context [if ?c then _ else _] => destruct c
         end.

(** What the [catch] block of the retouch handler does with whatever its
    [try] block threw. *)
Lemma handleGenerate_caught
  (w : World) (st : AppState) (image : File) (hotspot : Hotspot)
  (err : Thrown) (sent : list GenerateContentParameters) :
  currentImage st = Some image ->
  truthy_string (Some (trim (prompt st))) = true ->
  editHotspot st = Some hotspot ->
  (editedImageUrl <- generateEditedImage w image (prompt st) hotspot ;;
   lift (dataURLtoFile w editedImageUrl (timestamped w "edited-")))
  = (inl err, sent) ->
  handleGenerate w st
  = (failWith "Failed to generate the image. " err
       (startLoading "AI is thinking..." st), sent).
Proof.
  intros Hi Hp Hh Ha. unfold handleGenerate.
  rewrite Hi, Hp, Hh. simpl. rewrite Ha. reflexivity.
Qed.

Lemma handleRemoveBackground_caught
  (w : World) (st : AppState) (image : File)
  (err : Thrown) (sent : list GenerateContentParameters) :
  currentImage st = Some image ->
  (resultImageUrl <- removeBackground w image ;;
   lift (dataURLtoFile w resultImageUrl (timestamped w "bg-removed-")))
  = (inl err, sent) ->
  handleRemoveBackground w st
  = (failWith "Failed to remove background. " err
       (startLoading "Removing background..." st), sent).
Proof.
  intros Hi Ha. unfold handleRemoveBackground. rewrite Hi, Ha. reflexivity.
Qed.

Lemma failWith_spec (what : string) (err : Thrown) (st : AppState) :
  error (failWith what err st) = Some (what +:+ errorMessage err)
  /\ history (failWith what err st) = history st
  /\ historyIndex (failWith what err st) = historyIndex st
  /\ isLoading (failWith what err st) = false.
Proof. repeat split. Qed.

(** C9. An orchestrated operation fails when one of its local checks
    rejects it or when anything in its [try] block throws: the service
    call, whatever precedes it, the validation of the response or the
    decoding of the result. In either case the history sequence and the
    position are exactly what they were before the operation started, and
    the failure is shown as a message: the message of the check, or the
    handler's prefix followed by the message of what was thrown; after a
    throw the busy flag is down again. These are the only ways to fail: an
    operation whose [try] block completes shows no error, one that is
    neither rejected nor attempted changes nothing, and whenever a message
    is on display afterwards the history is as it was. *)
Theorem failed_task_preserves_history
  (w : World) (task : Task) (st : AppState) :
  (forall m,
      rejection w task st = Some m ->
      history (fst (runTask w task st)) = history st
      /\ historyIndex (fst (runTask w task st)) = historyIndex st
      /\ error (fst (runTask w task st)) = Some m
      /\ snd (runTask w task st) = [])
  /\ (forall err sent,
        attempt w task st = Some (inl err, sent) ->
        history (fst (runTask w task st)) = history st
        /\ historyIndex (fst (runTask w task st)) = historyIndex st
        /\ error (fst (runTask w task st))
           = Some (failurePrefix task +:+ errorMessage err)
        /\ isLoading (fst (runTask w task st)) = false
        /\ snd (runTask w task st) = sent)
  /\ (forall sent,
        attempt w task st = Some (inr tt, sent) ->
        error (fst (runTask w task st)) = None)
  /\ (rejection w task st = None ->
      attempt w task st = None ->
      runTask w task st = (st, []))
  /\ (forall m,
        error (fst (runTask w task st)) = Some m ->
        history (fst (runTask w task st)) = history st
        /\ historyIndex (fst (runTask w task st)) = historyIndex st).
Proof.
  destruct task; unfold runTask, failurePrefix; unfold_handlers;
    unfold rejection, attempt, forget;
    try destruct (truthy_string (Some (trim (prompt st)))) eqn:Hprompt;
    cbn [negb];
    split_checks; try split_attempt; cbn [fst snd];
    repeat match goal with
           | |- context [if ?c then _ else _] => destruct c
           end;
    repeat split; intros; simplify_eq; try discriminate; reflexivity.
Qed.

Lemma failed_task_preserves_history_witness :
  history (fst (runTask failingWorld Retouch readyState)) = [fileA; fileB]
  /\ historyIndex (fst (runTask failingWorld Retouch readyState)) = 1
  /\ error (fst (runTask failingWorld Retouch readyState))
     = Some "Failed to generate the image. 503 Service Unavailable"
  /\ isLoading (fst (runTask failingWorld Retouch readyState)) = false
  /\ snd (runTask failingWorld Retouch readyState)
     = [editRequest failingWorld
          {| inlineData := Some {| mimeType := Some "image/png";
                                   data := Some "BBBB" |};
             text := None |}
          "remove the person" {| hx := 120; hy := 80 |}].
Proof.
  exact (proj1 (proj2 (failed_task_preserves_history failingWorld Retouch
                         readyState))
           (JsError "503 Service Unavailable")
           [editRequest failingWorld
              {| inlineData := Some {| mimeType := Some "image/png";
                                       data := Some "BBBB" |};
                 text := None |}
              "remove the person" {| hx := 120; hy := 80 |}]
           eq_refl).
Defined.

(** ** Requests and their preconditions *)

Lemma bind_lift_sent {A B : Type} (m : IO A) (f : A -> Result B) :
  snd (v <- m ;; lift (f v)) = snd m.
Proof.
  destruct m as [[err | a] sent]; simpl; [reflexivity |].
  apply app_nil_r.
Qed.

(** Once the client exists and the image is read, a service function sends
    exactly its request, whatever comes back. *)
Lemma service_call_sent {A : Type}
  (w : World) (image : File) (part : Part)
  (request : Part -> GenerateContentParameters)
  (after : GenerateContentResponse -> Result A) :
  newGoogleGenAI w = inr tt ->
  fileToPart w image = inr part ->
  snd (_ <- lift (newGoogleGenAI w) ;;
       originalImagePart <- lift (fileToPart w image) ;;
       response <- generateContent w (request originalImagePart) ;;
       lift (after response))
  = [request part].
Proof.
  intros Hc Hp. rewrite Hc, Hp. simpl.
  destruct (serviceReply w (request part)) as [err | response]; reflexivity.
Qed.

(** The requests a handler sent are those of its [try] block. *)
Ltac sent_of_attempt :=
  match goal with
  | |- snd (match ?attempt with _ => _ end) = _ =>
      transitivity (snd attempt);
      [destruct attempt as [[?err | ?made] ?sent]; reflexivity |]
  end.

Section Sent.

Variables (w : World) (st : AppState) (image : File) (part : Part).
Hypothesis Himage : currentImage st = Some image.
Hypothesis Hclient : newGoogleGenAI w = inr tt.
Hypothesis Hpart : fileToPart w image = inr part.

Lemma handleApplyFilter_sent (filterPrompt : string) :
  snd (handleApplyFilter w filterPrompt st)
  = [filterRequest part filterPrompt].
Proof.
  unfold handleApplyFilter. rewrite Himage. sent_of_attempt.
  rewrite bind_lift_sent. unfold generateFilteredImage.
  exact (service_call_sent w image part
           (fun p => filterRequest p filterPrompt) _ Hclient Hpart).
Qed.

Lemma handleApplyAdjustment_sent (adjustmentPrompt : string) :
  snd (handleApplyAdjustment w adjustmentPrompt st)
  = [adjustmentRequest part adjustmentPrompt].
Proof.
  unfold handleApplyAdjustment. rewrite Himage. sent_of_attempt.
  rewrite bind_lift_sent. unfold generateAdjustedImage.
  exact (service_call_sent w image part
           (fun p => adjustmentRequest p adjustmentPrompt) _ Hclient Hpart).
Qed.

Lemma handleAutoEnhance_sent :
  snd (handleAutoEnhance w st) = [enhanceRequest part].
Proof.
  unfold handleAutoEnhance. rewrite Himage. sent_of_attempt.
  rewrite bind_lift_sent. unfold generateEnhancedImage.
  exact (service_call_sent w image part enhanceRequest _ Hclient Hpart).
Qed.

Lemma handleExtractText_sent :
  snd (handleExtractText w st) = [extractTextRequest part].
Proof.
  unfold handleExtractText. rewrite Himage. sent_of_attempt.
  unfold extractTextFromImage.
  exact (service_call_sent w image part extractTextRequest
           (fun response => inr (responseText response)) Hclient Hpart).
Qed.

Lemma handleDetectFaces_sent :
  snd (handleDetectFaces w st) = [detectFacesRequest part].
Proof.
  unfold handleDetectFaces. rewrite Himage. sent_of_attempt.
  unfold detectFaces.
  exact (service_call_sent w image part detectFacesRequest _ Hclient Hpart).
Qed.

Lemma handleRemoveBackground_sent :
  snd (handleRemoveBackground w st) = [removeBackgroundRequest part].
Proof.
  unfold handleRemoveBackground. rewrite Himage. sent_of_attempt.
  rewrite bind_lift_sent. unfold removeBackground.
  exact (service_call_sent w image part removeBackgroundRequest _
           Hclient Hpart).
Qed.

Lemma handleGenerate_sent (hotspot : Hotspot) :
  trim (prompt st) <> "" ->
  editHotspot st = Some hotspot ->
  snd (handleGenerate w st) = [editRequest w part (prompt st) hotspot].
Proof.
  intros Hprompt Hhotspot. unfold handleGenerate.
  rewrite Himage, Hhotspot.
  destruct (trim (prompt st)) as [| c rest] eqn:Htrim; [congruence |].
  simpl. sent_of_attempt.
  rewrite bind_lift_sent. unfold generateEditedImage.
  exact (service_call_sent w image part
           (fun p => editRequest w p (prompt st) hotspot) _ Hclient Hpart).
Qed.

End Sent.

Lemma handleGenerate_rejects (w : World) (st : AppState) :
  currentImage st = None \/ trim (prompt st) = "" \/ editHotspot st = None ->
  exists m, handleGenerate w st = (setError (Some m) st, []).
Proof.
  intros Hbad. unfold handleGenerate.
  destruct (currentImage st) as [image |]; [| eauto].
  destruct (trim (prompt st)) as [| c rest] eqn:Htrim; simpl; [eauto |].
  destruct (editHotspot st) as [hotspot |]; [| eauto].
  destruct Hbad as [Hbad | [Hbad | Hbad]]; discriminate.
Qed.

Lemma runTask_needs_image (w : World) (task : Task) (st : AppState) :
  currentImage st = None ->
  usesService task = true ->
  exists m, runTask w task st = (setError (Some m) st, []).
Proof.
  intros Hnone Huses. destruct task; try discriminate; simpl;
    unfold handleGenerate, handleApplyFilter, handleApplyAdjustment,
      handleAutoEnhance, handleExtractText, handleDetectFaces,
      handleRemoveBackground;
    rewrite Hnone; eauto.
Qed.

(** The claim that filter text is checked before the service is called
    fails: with an image loaded, the filter handler sends its request with
    an empty text and reports no error. *)
Lemma empty_filter_text_is_sent :
  snd (handleApplyFilter sampleWorld "" uploadedState)
  = [filterRequest partA ""]
  /\ error (fst (handleApplyFilter sampleWorld "" uploadedState)) = None.
Proof. split; reflexivity. Qed.

(** C8, amended. The retouch handler checks its preconditions before any
    service call: without a loaded image, with a blank instruction text or
    without a focus point it only sets an error message and sends nothing.
    Every delegated task without a loaded image does the same. With an
    image loaded (and the client and the image part built), retouch sends
    its request when the text is not blank and a focus point is set; the
    filter and adjustment handlers send their request with any text, the
    empty one included; enhance, OCR, face detection and background removal
    send theirs whatever the instruction text and focus point are. *)
Theorem request_preconditions (w : World) (st : AppState) :
  ((currentImage st = None \/ trim (prompt st) = ""
    \/ editHotspot st = None) ->
   exists m, handleGenerate w st = (setError (Some m) st, []))
  /\ (currentImage st = None ->
      forall task, usesService task = true ->
      exists m, runTask w task st = (setError (Some m) st, []))
  /\ (forall image part,
        currentImage st = Some image ->
        newGoogleGenAI w = inr tt ->
        fileToPart w image = inr part ->
        (forall hotspot,
            trim (prompt st) <> "" ->
            editHotspot st = Some hotspot ->
            snd (handleGenerate w st)
            = [editRequest w part (prompt st) hotspot])
        /\ (forall filterPrompt,
              snd (handleApplyFilter w filterPrompt st)
              = [filterRequest part filterPrompt])
        /\ (forall adjustmentPrompt,
              snd (handleApplyAdjustment w adjustmentPrompt st)
              = [adjustmentRequest part adjustmentPrompt])
        /\ snd (handleAutoEnhance w st) = [enhanceRequest part]
        /\ snd (handleExtractText w st) = [extractTextRequest part]
        /\ snd (handleDetectFaces w st) = [detectFacesRequest part]
        /\ snd (handleRemoveBackground w st)
           = [removeBackgroundRequest part]).
Proof.
  split; [apply handleGenerate_rejects |].
  split; [intros Hnone task; apply runTask_needs_image, Hnone |].
  intros image part Hi Hc Hp.
  split; [intros hotspot; apply (handleGenerate_sent w st image part Hi Hc Hp) |].
  split; [apply (handleApplyFilter_sent w st image part Hi Hc Hp) |].
  split; [apply (handleApplyAdjustment_sent w st image part Hi Hc Hp) |].
  split; [apply (handleAutoEnhance_sent w st image part Hi Hc Hp) |].
  split; [apply (handleExtractText_sent w st image part Hi Hc Hp) |].
  split; [apply (handleDetectFaces_sent w st image part Hi Hc Hp) |].
  apply (handleRemoveBackground_sent w st image part Hi Hc Hp).
Qed.

Lemma request_preconditions_witness :
  (exists m,
      handleGenerate sampleWorld uploadedState
      = (setError (Some m) uploadedState, []))
  /\ snd (handleAutoEnhance sampleWorld uploadedState)
     = [enhanceRequest partA].
Proof.
  destruct (request_preconditions sampleWorld uploadedState)
    as (Hretouch & _ & Hsent).
  split.
  - apply Hretouch. right. left. reflexivity.
  - destruct (Hsent fileA partA eq_refl eq_refl eq_refl)
      as (_ & _ & _ & Henhance & _).
    exact Henhance.
Defined.

(** ** The JavaScript helpers on small inputs *)

Example trim_strips_both_ends :
  trim (" " +:+ nl +:+ "make it  blue " +:+ nl) = "make it  blue".
Proof. reflexivity. Qed.

Example trim_blank_is_empty :
  trim ("   " +:+ nl) = "" /\ trim "" = "".
Proof. split; reflexivity. Qed.

Example trim_strips_no_break_space :
  trim (string_of_list_ascii (bytes [194; 160]%nat) +:+ "x") = "x".
Proof. reflexivity. Qed.

Example splitDataUrl_png :
  splitDataUrl "data:image/png;base64,AAAA" = inr ("image/png", "AAAA").
Proof. reflexivity. Qed.

Example splitDataUrl_without_comma :
  splitDataUrl "data:image/png;base64" = inl (JsError "Invalid data URL").
Proof. reflexivity. Qed.

Example splitDataUrl_without_mime :
  splitDataUrl "data:;base64,AAAA"
  = inl (JsError "Could not parse MIME type from data URL").
Proof. reflexivity. Qed.

Example slice0_examples :
  slice0 [1; 2; 3] 2 = [1; 2]
  /\ slice0 [1; 2; 3] 7 = [1; 2; 3]
  /\ slice0 [1; 2; 3] 0 = []
  /\ slice0 [1; 2; 3] (-1) = [1; 2].
Proof. repeat split; reflexivity. Qed.

Example first_upload_from_nothing :
  history (addImageToHistory fileA initialState) = [fileA]
  /\ historyIndex (addImageToHistory fileA initialState) = 0.
Proof. split; reflexivity. Qed.

Example retouch_succeeds :
  history (fst (handleGenerate sampleWorld readyState))
  = [fileA; fileB;
     {| fileName := "edited-0.png"; fileType := "image/png";
        fileBits := "iVBORw0KGgo=" |}]
  /\ historyIndex (fst (handleGenerate sampleWorld readyState)) = 2
  /\ error (fst (handleGenerate sampleWorld readyState)) = None.
Proof. repeat split; reflexivity. Qed.

(** ** Whole sessions *)

(** A task leaves the history alone or appends one artifact to it. *)
Lemma runTask_history_shape (w : World) (task : Task) (st : AppState) :
  (history (fst (runTask w task st)) = history st
   /\ historyIndex (fst (runTask w task st)) = historyIndex st)
  \/ (exists artifact,
        history (fst (runTask w task st))
        = history (addImageToHistory artifact st)
        /\ historyIndex (fst (runTask w task st))
           = historyIndex (addImageToHistory artifact st)).
Proof.
  destruct task; simpl;
    unfold handleGenerate, handleApplyFilter, handleApplyAdjustment,
      handleApplyCrop, handleApplyResize, handleAutoEnhance,
      handleExtractText, handleDetectFaces, handleRemoveBackground;
    repeat match goal with
           | |- context [match ?c with _ => _ end] =>
               lazymatch c with
               | bind _ _ => fail
               | extractTextFromImage _ _ => fail
               | detectFaces _ _ => fail
               | _ => destruct c eqn:?
               end
           | |- context [if ?c then _ else _] => destruct c eqn:?
           end;
    try split_attempt;
    simpl;
    repeat match goal with
           | |- context [if ?c then _ else _] => destruct c
           end;
    try (left; split; reflexivity);
    right; eexists; split; reflexivity.
Qed.

Lemma act_valid (step : World * Action) (st : AppState) :
  validHistory st ->
  validHistory (act step st) /\ originalImage (act step st) = originalImage st.
Proof.
  intros Hv. destruct step as [w [task | |]]; simpl.
  - destruct (runTask_history_shape w task st)
      as [[Hh Hi] | (artifact & Hh & Hi)];
      unfold validHistory, originalImage in *; rewrite Hh, Hi.
    + split; [exact Hv | reflexivity].
    + split.
      * apply addImageToHistory_valid.
      * apply (addImageToHistory_original artifact st Hv).
  - split; [apply (applyOp_valid (w, Undo) st Hv) |].
    apply (applyOp_original (w, Undo) st Hv).
  - split; [apply (applyOp_valid (w, Redo) st Hv) |].
    apply (applyOp_original (w, Redo) st Hv).
Qed.

(** The invariant of the history holds throughout a session, whatever the
    service answers: tasks, whether they succeed or fail, undo and redo
    keep the position valid and the original in place. *)
Lemma session_invariant
  (file : File) (st0 : AppState) (steps : list (World * Action)) :
  validHistory (runSession steps (handleImageUpload file st0))
  /\ originalImage (runSession steps (handleImageUpload file st0))
     = Some file.
Proof.
  assert (Hgen : forall st, validHistory st ->
            validHistory (runSession steps st)
            /\ originalImage (runSession steps st) = originalImage st).
  { induction steps as [| step steps IH]; intros st Hv; simpl.
    - split; [exact Hv | reflexivity].
    - destruct (act_valid step st Hv) as [Hv' Ho].
      destruct (IH (act step st) Hv') as [Hv'' Ho'].
      split; [exact Hv'' | congruence]. }
  apply Hgen. unfold validHistory. simpl. lia.
Qed.

(** * Further properties of the code *)

(** ** History navigation *)

Lemma index_valid {A : Type} (l : list A) (i : Z) :
  0 <= i <= Z.of_nat (length l) - 1 -> exists a, index l i = Some a.
Proof.
  intros Hi. unfold index.
  destruct (Z.ltb_spec i 0) as [Hneg | _]; [lia |].
  destruct (lookup_lt_is_Some_2 l (Z.to_nat i)) as [a Ha]; [lia |].
  exists a. exact Ha.
Qed.

Lemma index_last_app {A : Type} (l : list A) (a : A) :
  index (l ++ [a]) (Z.of_nat (length (l ++ [a])) - 1) = Some a.
Proof.
  unfold index. rewrite length_app. simpl.
  destruct (Z.ltb_spec (Z.of_nat (length l + 1) - 1) 0) as [Hneg | _]; [lia |].
  replace (Z.to_nat (Z.of_nat (length l + 1) - 1)) with (length l + 0)%nat by lia.
  rewrite lookup_app_r by lia.
  replace (length l + 0 - length l)%nat with 0%nat by lia. reflexivity.
Qed.

(** Whatever the state before, also before any upload or with a position
    out of range, an append makes the new artifact the current image at the
    last index, with nothing left to redo and a sequence no longer than the
    old one plus one. *)
Theorem append_makes_artifact_current (f : File) (st : AppState) :
  currentImage (addImageToHistory f st) = Some f
  /\ canRedo (addImageToHistory f st) = false
  /\ historyIndex (addImageToHistory f st)
     = Z.of_nat (length (history (addImageToHistory f st))) - 1
  /\ (1 <= length (history (addImageToHistory f st))
      <= length (history st) + 1)%nat.
Proof.
  split; [| split; [| split]].
  - unfold currentImage. rewrite historyIndex_addImageToHistory.
    rewrite history_addImageToHistory. apply index_last_app.
  - unfold canRedo. rewrite historyIndex_addImageToHistory.
    apply Z.ltb_irrefl.
  - apply historyIndex_addImageToHistory.
  - rewrite history_addImageToHistory, length_app. simpl.
    pose proof (slice0_length (history st) (historyIndex st + 1)). lia.
Qed.

(** Undo followed by redo, and redo followed by undo, bring the position
    and the current image back and leave the sequence as it was. *)
Theorem undo_redo_round_trip (w w' : World) (st : AppState) :
  0 <= historyIndex st <= Z.of_nat (length (history st)) - 1 ->
  (0 < historyIndex st ->
   historyIndex (handleRedo w' (handleUndo w st)) = historyIndex st
   /\ history (handleRedo w' (handleUndo w st)) = history st
   /\ currentImage (handleRedo w' (handleUndo w st)) = currentImage st)
  /\ (historyIndex st < Z.of_nat (length (history st)) - 1 ->
      historyIndex (handleUndo w' (handleRedo w st)) = historyIndex st
      /\ history (handleUndo w' (handleRedo w st)) = history st
      /\ currentImage (handleUndo w' (handleRedo w st)) = currentImage st).
Proof.
  intros Hv. split; intros Hpos.
  - assert (Hi : historyIndex (handleRedo w' (handleUndo w st))
                 = historyIndex st).
    { rewrite handleRedo_index, handleUndo_history, handleUndo_index.
      destruct (Z.ltb_spec 0 (historyIndex st)); [| lia].
      destruct (Z.ltb_spec (historyIndex st - 1)
                  (Z.of_nat (length (history st)) - 1)); lia. }
    assert (Hh : history (handleRedo w' (handleUndo w st)) = history st)
      by (rewrite handleRedo_history; apply handleUndo_history).
    unfold currentImage. rewrite Hi, Hh. repeat split.
  - assert (Hi : historyIndex (handleUndo w' (handleRedo w st))
                 = historyIndex st).
    { rewrite handleUndo_index, handleRedo_index.
      destruct (Z.ltb_spec (historyIndex st)
                  (Z.of_nat (length (history st)) - 1)); [| lia].
      destruct (Z.ltb_spec 0 (historyIndex st + 1)); lia. }
    assert (Hh : history (handleUndo w' (handleRedo w st)) = history st)
      by (rewrite handleUndo_history; apply handleRedo_history).
    unfold currentImage. rewrite Hi, Hh. repeat split.
Qed.

Lemma undo_redo_round_trip_witness :
  let st := handleUndo sampleWorld threeStepState in
  currentImage (handleRedo sampleWorld (handleUndo sampleWorld st))
  = Some fileB
  /\ currentImage (handleUndo sampleWorld (handleRedo sampleWorld st))
     = Some fileB.
Proof.
  intros st.
  assert (Hv : 0 <= historyIndex st <= Z.of_nat (length (history st)) - 1)
    by (subst st; vm_compute; split; discriminate).
  destruct (undo_redo_round_trip sampleWorld sampleWorld st Hv)
    as [Hur Hru].
  split.
  - destruct Hur as (_ & _ & Hc); [reflexivity |]. rewrite Hc. reflexivity.
  - destruct Hru as (_ & _ & Hc); [reflexivity |]. rewrite Hc. reflexivity.
Defined.

Lemma undoTimes_history (w : World) (n : nat) (st : AppState) :
  history (undoTimes w n st) = history st.
Proof.
  induction n as [| n IH]; simpl; [reflexivity |].
  unfold undoTimes in *. simpl. now rewrite handleUndo_history.
Qed.

Lemma redoTimes_history (w : World) (n : nat) (st : AppState) :
  history (redoTimes w n st) = history st.
Proof.
  induction n as [| n IH]; simpl; [reflexivity |].
  unfold redoTimes in *. simpl. now rewrite handleRedo_history.
Qed.

Lemma undoTimes_index (w : World) (n : nat) (st : AppState) :
  0 <= historyIndex st ->
  historyIndex (undoTimes w n st) = Z.max 0 (historyIndex st - Z.of_nat n).
Proof.
  intros H0. induction n as [| n IH]; unfold undoTimes in *; simpl.
  - lia.
  - rewrite handleUndo_index, IH.
    destruct (Z.ltb_spec 0 (Z.max 0 (historyIndex st - Z.of_nat n))); lia.
Qed.

Lemma redoTimes_index (w : World) (n : nat) (st : AppState) :
  historyIndex st <= Z.of_nat (length (history st)) - 1 ->
  historyIndex (redoTimes w n st)
  = Z.min (Z.of_nat (length (history st)) - 1)
      (historyIndex st + Z.of_nat n).
Proof.
  intros Hl. induction n as [| n IH].
  - unfold redoTimes. simpl. lia.
  - change (redoTimes w (S n) st) with (handleRedo w (redoTimes w n st)).
    rewrite handleRedo_index, redoTimes_history, IH.
    destruct (Z.ltb_spec
                (Z.min (Z.of_nat (length (history st)) - 1)
                   (historyIndex st + Z.of_nat n))
                (Z.of_nat (length (history st)) - 1)); lia.
Qed.

(** Repeated undo and redo saturate: [n] undos move the position to
    max(0, position - n) and [n] redos to min(last, position + n), the
    sequence staying as it is; so enough undos show the original image, and
    as many redos afterwards show the latest artifact again. *)
Theorem repeated_undo_redo_saturate (w : World) (n : nat) (st : AppState) :
  0 <= historyIndex st <= Z.of_nat (length (history st)) - 1 ->
  historyIndex (undoTimes w n st) = Z.max 0 (historyIndex st - Z.of_nat n)
  /\ historyIndex (redoTimes w n st)
     = Z.min (Z.of_nat (length (history st)) - 1)
         (historyIndex st + Z.of_nat n)
  /\ history (undoTimes w n st) = history st
  /\ history (redoTimes w n st) = history st
  /\ (historyIndex st <= Z.of_nat n ->
      currentImage (undoTimes w n st) = originalImage st)
  /\ (Z.of_nat (length (history st)) - 1 <= Z.of_nat n ->
      historyIndex (redoTimes w n (undoTimes w n st))
      = Z.of_nat (length (history st)) - 1).
Proof.
  intros Hv.
  pose proof (undoTimes_index w n st (proj1 Hv)) as Hu.
  pose proof (redoTimes_index w n st (proj2 Hv)) as Hr.
  repeat split.
  - exact Hu.
  - exact Hr.
  - apply undoTimes_history.
  - apply redoTimes_history.
  - intros Hn. unfold currentImage, originalImage.
    rewrite undoTimes_history, Hu. f_equal. lia.
  - intros Hn. rewrite redoTimes_index; rewrite undoTimes_history, Hu; lia.
Qed.

Lemma repeated_undo_redo_saturate_witness :
  currentImage (undoTimes sampleWorld 5 threeStepState) = Some fileA
  /\ historyIndex
       (redoTimes sampleWorld 5 (undoTimes sampleWorld 5 threeStepState))
     = 2.
Proof.
  assert (Hv : 0 <= historyIndex threeStepState
               <= Z.of_nat (length (history threeStepState)) - 1)
    by (vm_compute; split; discriminate).
  destruct (repeated_undo_redo_saturate sampleWorld 5 threeStepState Hv)
    as (_ & _ & _ & _ & Hc & Hl).
  split.
  - rewrite Hc; [reflexivity | vm_compute; discriminate].
  - rewrite Hl; [reflexivity | vm_compute; discriminate].
Defined.

(** ** Choosing a file *)

(** Of the chosen files only the first counts. When its type starts with
    [image/] the whole previous history goes: the file is the only entry,
    at once current and original, with nothing to undo or redo and no error
    left. Otherwise the history is untouched and an error is shown. *)
Theorem file_select_resets_or_rejects
  (file : File) (others : list File) (st : AppState) :
  let st' := handleFileSelect (Some (file :: others)) st in
  (String.prefix "image/" (fileType file) = true ->
   history st' = [file] /\ historyIndex st' = 0
   /\ currentImage st' = Some file /\ originalImage st' = Some file
   /\ canUndo st' = false /\ canRedo st' = false
   /\ error st' = None /\ faces st' = [] /\ editHotspot st' = None)
  /\ (String.prefix "image/" (fileType file) = false ->
      history st' = history st /\ historyIndex st' = historyIndex st
      /\ error st' = Some "Please upload a valid image file.").
Proof.
  intros st'. subst st'. unfold handleFileSelect.
  split; intros Hp; rewrite Hp; repeat split.
Qed.

Lemma file_select_resets_or_rejects_witness :
  history (handleFileSelect (Some [fileC; fileA]) threeStepState) = [fileC]
  /\ canUndo (handleFileSelect (Some [fileC; fileA]) threeStepState) = false.
Proof.
  destruct (file_select_resets_or_rejects fileC [fileA] threeStepState)
    as [Hok _].
  destruct (Hok eq_refl) as (Hh & _ & _ & _ & Hu & _).
  split; [exact Hh | exact Hu].
Defined.

(** ** The response validator, case by case *)

(** The validator succeeds only on an unblocked response whose first
    candidate holds an image part, and then with that part's data URL. *)
Theorem validator_success_needs_image
  (response : GenerateContentResponse) (context url : string) :
  handleApiResponse response context = inr url ->
  truthy_string (promptBlockReason response) = false
  /\ exists part blob,
       imagePartFromResponse response = Some part
       /\ inlineData part = Some blob
       /\ url = "data:" +:+ template (mimeType blob) +:+ ";base64,"
                  +:+ template (data blob).
Proof.
  unfold handleApiResponse.
  destruct (truthy_string (promptBlockReason response)); [discriminate |].
  destruct (imagePartFromResponse response) as [part |] eqn:Hpart.
  - destruct (inlineData part) as [blob |] eqn:Hblob.
    + intros Hok. split; [reflexivity |].
      exists part, blob. split; [reflexivity |]. split; [exact Hblob |].
      congruence.
    + destruct (_ && _); discriminate.
  - destruct (_ && _); discriminate.
Qed.

Lemma validator_success_needs_image_witness :
  truthy_string (promptBlockReason stoppedImageReply) = false
  /\ exists part blob,
       imagePartFromResponse stoppedImageReply = Some part
       /\ inlineData part = Some blob
       /\ "data:image/png;base64,iVBORw0KGgo="
          = "data:" +:+ template (mimeType blob) +:+ ";base64,"
              +:+ template (data blob).
Proof.
  exact (validator_success_needs_image stoppedImageReply "edit"
           "data:image/png;base64,iVBORw0KGgo=" eq_refl).
Defined.

(** Without a block reason and without an image part, a finish reason
    other than STOP makes the validator fail with the stopped-unexpectedly
    error, which names the task and the finish reason; the accompanying
    text is not looked at. *)
Theorem stopped_without_image
  (response : GenerateContentResponse) (context reason : string)
  (candidate : Candidate) :
  truthy_string (promptBlockReason response) = false ->
  imagePartFromResponse response = None ->
  firstCandidate response = Some candidate ->
  finishReason candidate = Some reason ->
  reason <> "" ->
  reason <> "STOP" ->
  handleApiResponse response context
  = inl (JsError
           ("Image generation for " +:+ context
              +:+ " stopped unexpectedly. Reason: " +:+ reason
              +:+ ". This often relates to safety settings.")).
Proof.
  intros Hb Hi Hc Hr Hne Hstop. unfold handleApiResponse.
  rewrite Hb, Hi, Hc, Hr. simpl.
  destruct reason as [| c rest]; [congruence |].
  destruct (String.eqb_spec (String c rest) "STOP") as [Heq | _];
    [congruence | reflexivity].
Qed.

Lemma stopped_without_image_witness :
  handleApiResponse
    {| promptFeedback := None;
       candidates := Some [ {| content := None;
                               finishReason := Some "MAX_TOKENS" |} ];
       responseText := Some "partial" |} "enhancement"
  = inl (JsError "Image generation for enhancement stopped unexpectedly. Reason: MAX_TOKENS. This often relates to safety settings.").
Proof.
  refine (stopped_without_image
            {| promptFeedback := None;
               candidates := Some [ {| content := None;
                                       finishReason := Some "MAX_TOKENS" |} ];
               responseText := Some "partial" |}
            "enhancement" "MAX_TOKENS"
            {| content := None; finishReason := Some "MAX_TOKENS" |}
            eq_refl eq_refl eq_refl eq_refl _ _); discriminate.
Defined.

(** Without a block reason, an image part or a finish reason other than
    STOP, the validator fails with the no-image error for the task: it
    quotes the response text, trimmed, when that is not blank, and gives
    the standard hint when the text is missing or blank. *)
Theorem no_image_returned
  (response : GenerateContentResponse) (context : string) :
  truthy_string (promptBlockReason response) = false ->
  imagePartFromResponse response = None ->
  (forall candidate reason,
      firstCandidate response = Some candidate ->
      finishReason candidate = Some reason ->
      reason = "" \/ reason = "STOP") ->
  handleApiResponse response context
  = inl (JsError
           ("The AI model did not return an image for the " +:+ context
              +:+ ". "
              +:+ match responseText response with
                  | Some txt =>
                      if String.eqb (trim txt) "" then
                        "This can happen due to safety filters or if the request is too complex. Please try rephrasing your prompt to be more direct."
                      else
                        "The model responded with text: " +:+ dquote
                          +:+ trim txt +:+ dquote
                  | None =>
                      "This can happen due to safety filters or if the request is too complex. Please try rephrasing your prompt to be more direct."
                  end)).
Proof.
  intros Hb Hi Hfin. unfold handleApiResponse. rewrite Hb, Hi.
  assert (Hno : (let reason :=
                   match firstCandidate response with
                   | Some c => finishReason c
                   | None => None
                   end in
                 truthy_string reason
                 && negb (String.eqb (template reason) "STOP")) = false).
  { simpl. destruct (firstCandidate response) as [c |] eqn:Hc; [| reflexivity].
    destruct (finishReason c) as [reason |] eqn:Hr; [| reflexivity].
    destruct (Hfin c reason eq_refl Hr) as [-> | ->]; reflexivity. }
  simpl in Hno. simpl. rewrite Hno.
  destruct (responseText response) as [txt |]; simpl; [| reflexivity].
  destruct (trim txt) as [| c rest]; reflexivity.
Qed.

Lemma no_image_returned_witness :
  handleApiResponse (textReply "  Sorry, I cannot edit this. ") "filter"
  = inl (JsError
           ("The AI model did not return an image for the filter. The model responded with text: "
              +:+ quoted "Sorry, I cannot edit this.")).
Proof.
  refine (no_image_returned (textReply "  Sorry, I cannot edit this. ")
            "filter" eq_refl eq_refl _).
  intros candidate reason Hc Hr. right.
  injection Hc as <-. injection Hr as <-. reflexivity.
Defined.

(** ** [trim] *)

Lemma stripPrefix_Some (p s r : list ascii) :
  stripPrefix p s = Some r <-> s = p ++ r.
Proof.
  revert s. induction p as [| a p IH]; intros s; simpl.
  - split; congruence.
  - destruct s as [| b s]; [split; discriminate |].
    destruct (Ascii.eqb_spec a b) as [-> | Hab].
    + rewrite IH. split; congruence.
    + split; [discriminate | congruence].
Qed.

Lemma stripAny_Some (table : list (list ascii)) (s r : list ascii) :
  stripAny table s = Some r -> exists p, In p table /\ s = p ++ r.
Proof.
  induction table as [| p table IH]; simpl; [discriminate |].
  destruct (stripPrefix p s) as [r' |] eqn:Hp.
  - intros [= ->]. exists p. split; [now left |].
    now apply stripPrefix_Some.
  - intros Hr. destruct (IH Hr) as (q & Hq & Hs).
    exists q. split; [now right | exact Hs].
Qed.

Lemma stripAny_None (table : list (list ascii)) (s : list ascii) :
  stripAny table s = None <->
  forall p r, In p table -> s <> p ++ r.
Proof.
  induction table as [| p table IH]; simpl.
  - split; [intros _ q r [] | reflexivity].
  - destruct (stripPrefix p s) as [r' |] eqn:Hp.
    + split; [discriminate |].
      intros Hno. apply stripPrefix_Some in Hp.
      exfalso. exact (Hno p r' (or_introl eq_refl) Hp).
    + rewrite IH. split.
      * intros Hno q r [<- | Hq] Hs.
        -- apply stripPrefix_Some in Hs. congruence.
        -- exact (Hno q r Hq Hs).
      * intros Hno q r Hq. apply Hno. now right.
Qed.

Lemma stripAny_None_prefix (table : list (list ascii)) (s t : list ascii) :
  stripAny table (s ++ t) = None -> stripAny table s = None.
Proof.
  rewrite !stripAny_None. intros Hno p r Hp ->.
  apply (Hno p (r ++ t) Hp). now rewrite app_assoc.
Qed.

Lemma dropWhileAny_fixed (fuel : nat) (table : list (list ascii))
  (s : list ascii) :
  stripAny table s = None -> dropWhileAny fuel table s = s.
Proof. intros Hs. destruct fuel; simpl; [| rewrite Hs]; reflexivity. Qed.

Lemma dropWhileAny_spec (table : list (list ascii)) :
  Forall (fun p => p <> []) table ->
  forall (fuel : nat) (s : list ascii),
    (length s <= fuel)%nat ->
    exists points,
      Forall (fun p => In p table) points
      /\ s = concat points ++ dropWhileAny fuel table s
      /\ stripAny table (dropWhileAny fuel table s) = None.
Proof.
  intros Hne. induction fuel as [| fuel IH]; intros s Hlen; simpl.
  - exists []. split; [constructor | split; [reflexivity |]].
    destruct s; [| simpl in Hlen; lia].
    apply stripAny_None. intros p r Hp Hs.
    rewrite List.Forall_forall in Hne. apply (Hne p Hp).
    symmetry in Hs. now apply app_eq_nil in Hs.
  - destruct (stripAny table s) as [s' |] eqn:Hs.
    + destruct (stripAny_Some table s s' Hs) as (p & Hp & ->).
      assert (Hp' : p <> []) by (rewrite List.Forall_forall in Hne; auto).
      destruct (IH s') as (points & Hall & Heq & Hnone).
      { rewrite length_app in Hlen. destruct p; [congruence |].
        simpl in Hlen. lia. }
      exists (p :: points). split; [constructor; assumption |].
      split; [| exact Hnone].
      simpl. rewrite <- app_assoc. now rewrite <- Heq.
    + exists []. split; [constructor | split; [reflexivity | exact Hs]].
Qed.

Lemma whitespace_nonempty : Forall (fun p : list ascii => p <> []) whitespace.
Proof. repeat constructor; discriminate. Qed.

Lemma rev_whitespace_nonempty :
  Forall (fun p : list ascii => p <> []) (map (@rev ascii) whitespace).
Proof. repeat constructor; discriminate. Qed.

Lemma rev_concat_points (points : list (list ascii)) :
  rev (concat points) = concat (map (@rev ascii) (rev points)).
Proof.
  induction points as [| p points IH]; simpl; [reflexivity |].
  rewrite rev_app_distr, IH, map_app, concat_app. simpl.
  now rewrite app_nil_r.
Qed.

Lemma trimStartBytes_spec (s : list ascii) :
  exists points,
    Forall (fun p => In p whitespace) points
    /\ s = concat points ++ trimStartBytes s
    /\ stripAny whitespace (trimStartBytes s) = None.
Proof.
  apply (dropWhileAny_spec whitespace whitespace_nonempty). lia.
Qed.

Lemma trimEndBytes_spec (s : list ascii) :
  exists points,
    Forall (fun p => In p whitespace) points
    /\ s = trimEndBytes s ++ concat points
    /\ stripAny (map (@rev ascii) whitespace) (rev (trimEndBytes s)) = None.
Proof.
  destruct (dropWhileAny_spec (map (@rev ascii) whitespace)
              rev_whitespace_nonempty (length s) (rev s))
    as (points & Hall & Heq & Hnone); [rewrite length_rev; lia |].
  exists (map (@rev ascii) (rev points)). split; [| split].
  - apply List.Forall_forall. intros q Hq.
    apply in_map_iff in Hq. destruct Hq as (p & <- & Hp).
    apply in_rev in Hp. rewrite List.Forall_forall in Hall.
    specialize (Hall p Hp). apply in_map_iff in Hall.
    destruct Hall as (p0 & <- & Hp0). now rewrite rev_involutive.
  - unfold trimEndBytes. rewrite <- rev_concat_points.
    rewrite <- rev_app_distr, <- Heq. now rewrite rev_involutive.
  - unfold trimEndBytes. rewrite rev_involutive. exact Hnone.
Qed.

Lemma list_ascii_of_string_app (a b : string) :
  list_ascii_of_string (a +:+ b)
  = list_ascii_of_string a ++ list_ascii_of_string b.
Proof. induction a as [| c a IH]; simpl; [reflexivity | now rewrite IH]. Qed.

Lemma string_of_list_ascii_app (a b : list ascii) :
  string_of_list_ascii (a ++ b)
  = string_of_list_ascii a +:+ string_of_list_ascii b.
Proof. induction a as [| c a IH]; simpl; [reflexivity | now rewrite IH]. Qed.

Lemma trim_bytes (s : string) :
  list_ascii_of_string (trim s)
  = trimEndBytes (trimStartBytes (list_ascii_of_string s)).
Proof. unfold trim. apply list_ascii_of_string_of_list_ascii. Qed.

Lemma trim_clean (s : string) :
  stripAny whitespace (list_ascii_of_string (trim s)) = None
  /\ stripAny (map (@rev ascii) whitespace)
       (rev (list_ascii_of_string (trim s))) = None.
Proof.
  rewrite trim_bytes.
  destruct (trimStartBytes_spec (list_ascii_of_string s))
    as (_ & _ & _ & Hstart).
  destruct (trimEndBytes_spec (trimStartBytes (list_ascii_of_string s)))
    as (points & _ & Heq & Hend).
  split; [| exact Hend].
  rewrite Heq in Hstart. exact (stripAny_None_prefix _ _ _ Hstart).
Qed.

Lemma trim_fixed (s : string) :
  stripAny whitespace (list_ascii_of_string s) = None ->
  stripAny (map (@rev ascii) whitespace) (rev (list_ascii_of_string s)) = None ->
  trim s = s.
Proof.
  intros Hstart Hend. unfold trim, trimStartBytes.
  rewrite (dropWhileAny_fixed _ _ _ Hstart).
  unfold trimEndBytes. rewrite (dropWhileAny_fixed _ _ _ Hend).
  rewrite rev_involutive. apply string_of_list_ascii_of_string.
Qed.

(** [trim] removes whitespace code points, and nothing else, from the two
    ends: the string is a run of whitespace, then the result, then a run of
    whitespace, and the result neither starts nor ends with whitespace. *)
Theorem trim_removes_only_outer_whitespace (s : string) :
  exists before after,
    s = before +:+ trim s +:+ after
    /\ allWhitespace before
    /\ allWhitespace after
    /\ startsWithWhitespace (trim s) = false
    /\ endsWithWhitespace (trim s) = false.
Proof.
  destruct (trimStartBytes_spec (list_ascii_of_string s))
    as (ps & Hps & Hs & _).
  destruct (trimEndBytes_spec (trimStartBytes (list_ascii_of_string s)))
    as (qs & Hqs & Ht & _).
  destruct (trim_clean s) as [Hstart Hend].
  exists (string_of_list_ascii (concat ps)),
    (string_of_list_ascii (concat qs)).
  repeat split.
  - rewrite <- (string_of_list_ascii_of_string s) at 1.
    rewrite Hs, Ht at 1. rewrite <- trim_bytes.
    rewrite !string_of_list_ascii_app.
    now rewrite string_of_list_ascii_of_string.
  - exists ps. split; [exact Hps |].
    apply list_ascii_of_string_of_list_ascii.
  - exists qs. split; [exact Hqs |].
    apply list_ascii_of_string_of_list_ascii.
  - unfold startsWithWhitespace. now rewrite Hstart.
  - unfold endsWithWhitespace. now rewrite Hend.
Qed.

(** Trimming twice is trimming once, and a string that neither starts nor
    ends with whitespace is its own trim. *)
Theorem trim_idempotent (s : string) :
  trim (trim s) = trim s
  /\ (startsWithWhitespace s = false ->
      endsWithWhitespace s = false ->
      trim s = s).
Proof.
  split.
  - destruct (trim_clean s) as [Hstart Hend].
    exact (trim_fixed (trim s) Hstart Hend).
  - unfold startsWithWhitespace, endsWithWhitespace.
    intros Hstart Hend. apply trim_fixed.
    + destruct (stripAny whitespace _); [discriminate | reflexivity].
    + destruct (stripAny (map _ whitespace) _); [discriminate | reflexivity].
Qed.

Lemma trim_idempotent_witness :
  trim "make it blue" = "make it blue".
Proof.
  exact (proj2 (trim_idempotent "make it blue") eq_refl eq_refl).
Defined.

(** ** Data URLs *)

Lemma splitComma_nonempty (s : string) : splitComma s <> [].
Proof.
  destruct s as [| c s]; simpl; [discriminate |].
  destruct (Ascii.eqb c ","); [discriminate |].
  destruct (splitComma s); discriminate.
Qed.

Lemma concat_cons (sep x : string) (ls : list string) :
  ls <> [] ->
  String.concat sep (x :: ls) = x +:+ sep +:+ String.concat sep ls.
Proof. destruct ls; [congruence | reflexivity]. Qed.

Lemma splitComma_joins (s : string) :
  String.concat "," (splitComma s) = s
  /\ Forall (fun piece => noByte "," piece = true) (splitComma s).
Proof.
  induction s as [| c s [IHj IHf]].
  - split; [reflexivity | repeat constructor].
  - pose proof (splitComma_nonempty s) as Hne.
    simpl. destruct (Ascii.eqb_spec c ",") as [-> | Hc].
    + split.
      * rewrite (concat_cons _ _ _ Hne), IHj. reflexivity.
      * constructor; [reflexivity | exact IHf].
    + destruct (splitComma s) as [| p ps]; [congruence |].
      split.
      * rewrite <- IHj. destruct ps; reflexivity.
      * inversion IHf as [| ? ? Hp Hps]; subst.
        constructor; [| exact Hps].
        unfold noByte in *. simpl. rewrite Hp.
        destruct (Ascii.eqb_spec c ","); [contradiction | reflexivity].
Qed.

(** Splitting at the commas and joining the pieces with commas gives the
    string back, and no piece holds a comma. *)
Theorem splitComma_round_trip (s : string) :
  String.concat "," (splitComma s) = s
  /\ Forall (fun piece => noByte "," piece = true) (splitComma s)
  /\ (1 <= length (splitComma s))%nat.
Proof.
  destruct (splitComma_joins s) as [Hj Hf].
  split; [exact Hj | split; [exact Hf |]].
  pose proof (splitComma_nonempty s). destruct (splitComma s); simpl;
    [congruence | lia].
Qed.

Lemma append_assoc_strings (a b c : string) :
  (a +:+ b) +:+ c = a +:+ (b +:+ c).
Proof.
  induction a as [| x a IH]; [reflexivity |].
  change (String x ((a +:+ b) +:+ c) = String x (a +:+ (b +:+ c))).
  now f_equal.
Qed.

Lemma append_empty_r (a : string) : a +:+ "" = a.
Proof.
  induction a as [| x a IH]; [reflexivity |].
  change (String x (a +:+ "") = String x a). now f_equal.
Qed.

Lemma noByte_app (c : ascii) (a b : string) :
  noByte c (a +:+ b) = noByte c a && noByte c b.
Proof.
  unfold noByte. rewrite list_ascii_of_string_app. apply forallb_app.
Qed.

Lemma lazyUntilSemicolon_cons (c : ascii) (rest : list ascii) :
  lazyUntilSemicolon (c :: rest)
  = if Ascii.eqb c ";" then Some []
    else
      match stripAny lineTerminators (c :: rest) with
      | Some _ => None
      | None => option_map (cons c) (lazyUntilSemicolon rest)
      end.
Proof. reflexivity. Qed.

Lemma lazyUntilSemicolon_Some (s g : list ascii) :
  lazyUntilSemicolon s = Some g ->
  exists post,
    s = g ++ ";"%char :: post
    /\ forallb (fun b => negb (Ascii.eqb b ";")) g = true.
Proof.
  revert g. induction s as [| c s IH]; intros g; [discriminate |].
  rewrite lazyUntilSemicolon_cons.
  destruct (Ascii.eqb_spec c ";") as [-> | Hc].
  - intros [= <-]. exists s. split; reflexivity.
  - destruct (stripAny lineTerminators (c :: s)); [discriminate |].
    destruct (lazyUntilSemicolon s) as [g' |]; [| discriminate].
    simpl. intros [= <-]. destruct (IH g' eq_refl) as (post & -> & Hg).
    exists post. split; [reflexivity |]. simpl. rewrite Hg.
    destruct (Ascii.eqb_spec c ";"); [contradiction | reflexivity].
Qed.

Lemma matchMime_Some (s g : list ascii) :
  matchMime s = Some g ->
  exists pre post,
    s = pre ++ ":"%char :: g ++ ";"%char :: post
    /\ forallb (fun b => negb (Ascii.eqb b ";")) g = true.
Proof.
  induction s as [| c s IH]; simpl; [discriminate |].
  destruct (Ascii.eqb_spec c ":") as [-> | Hc].
  - destruct (lazyUntilSemicolon s) as [g' |] eqn:Hl.
    + intros [= ->].
      destruct (lazyUntilSemicolon_Some s g Hl) as (post & -> & Hg).
      exists [], post. split; [reflexivity | exact Hg].
    + intros Hm. destruct (IH Hm) as (pre & post & -> & Hg).
      exists (":"%char :: pre), post. split; [reflexivity | exact Hg].
  - intros Hm. destruct (IH Hm) as (pre & post & -> & Hg).
    exists (c :: pre), post. split; [reflexivity | exact Hg].
Qed.

(** Two ways of cutting a string into a comma-free part, a comma, a
    comma-free payload and a rest that is empty or starts with a comma
    agree on the part and on the payload. *)
Lemma comma_cut_unique (h1 p1 t1 h2 p2 t2 : string) :
  h1 +:+ "," +:+ p1 +:+ t1 = h2 +:+ "," +:+ p2 +:+ t2 ->
  noByte "," h1 = true -> noByte "," h2 = true ->
  noByte "," p1 = true -> noByte "," p2 = true ->
  (t1 = "" \/ exists more, t1 = "," +:+ more) ->
  (t2 = "" \/ exists more, t2 = "," +:+ more) ->
  h1 = h2 /\ p1 = p2.
Proof.
  assert (Hcut : forall a b c d : string,
             noByte "," a = true -> noByte "," c = true ->
             a +:+ String "," b = c +:+ String "," d ->
             a = c /\ b = d).
  { induction a as [| x a IH]; intros b c d Ha Hc Heq.
    - destruct c as [| y c]; simpl in Heq.
      + injection Heq as ->. split; reflexivity.
      + injection Heq as <- _. discriminate.
    - destruct c as [| y c]; simpl in Heq.
      + injection Heq as -> _. discriminate.
      + injection Heq as <- Heq.
        unfold noByte in Ha, Hc. simpl in Ha, Hc.
        apply andb_prop in Ha. destruct Ha as [_ Ha].
        apply andb_prop in Hc. destruct Hc as [_ Hc].
        destruct (IH b c d Ha Hc Heq) as [-> ->]. split; reflexivity. }
  intros Heq Hh1 Hh2 Hp1 Hp2 Ht1 Ht2.
  destruct (Hcut h1 (p1 +:+ t1) h2 (p2 +:+ t2) Hh1 Hh2 Heq) as [-> Hrest].
  split; [reflexivity |].
  assert (Hcomma : forall a b : string,
             noByte "," (a +:+ "," +:+ b) = false).
  { intros a b. rewrite noByte_app.
    change (noByte "," ("," +:+ b)) with false. apply andb_false_r. }
  destruct Ht1 as [-> | [m1 ->]]; destruct Ht2 as [-> | [m2 ->]].
  - now rewrite !append_empty_r in Hrest.
  - rewrite append_empty_r in Hrest. rewrite Hrest in Hp1.
    rewrite Hcomma in Hp1. discriminate.
  - rewrite append_empty_r in Hrest. rewrite <- Hrest in Hp2.
    rewrite Hcomma in Hp2. discriminate.
  - destruct (Hcut p1 m1 p2 m2 Hp1 Hp2 Hrest) as [-> _]. reflexivity.
Qed.

(** When [splitDataUrl] succeeds, the URL is a part without any comma,
    then a comma, then the payload, which has no comma either, then nothing
    or a further comma and more: the payload is what lies between the first
    comma and the second, if there is one, and no other cut of the URL of
    that shape gives another payload. Inside the part before the first
    comma, the MIME type lies between a colon and the next semicolon; it is
    never empty. *)
Theorem splitDataUrl_sound (dataUrl mime payload : string) :
  splitDataUrl dataUrl = inr (mime, payload) ->
  exists before after tail,
    dataUrl
    = (before +:+ ":" +:+ mime +:+ ";" +:+ after) +:+ "," +:+ payload
        +:+ tail
    /\ noByte "," before = true
    /\ noByte "," mime = true
    /\ noByte "," after = true
    /\ noByte "," payload = true
    /\ (tail = "" \/ exists more, tail = "," +:+ more)
    /\ mime <> ""
    /\ noByte ";" mime = true
    /\ (forall head' payload' tail',
          dataUrl = head' +:+ "," +:+ payload' +:+ tail' ->
          noByte "," head' = true ->
          noByte "," payload' = true ->
          (tail' = "" \/ exists more, tail' = "," +:+ more) ->
          payload' = payload).
Proof.
  unfold splitDataUrl.
  destruct (splitComma_joins dataUrl) as [Hjoin Hclean].
  destruct (splitComma dataUrl) as [| head [| piece rest]];
    try discriminate.
  destruct (matchMime (list_ascii_of_string head)) as [[| c group] |] eqn:Hm;
    try discriminate.
  remember (string_of_list_ascii (c :: group)) as m eqn:Hmdef.
  intros [= <- <-].
  destruct (matchMime_Some _ _ Hm) as (pre & post & Hhead & Hsemi).
  assert (Hstr : head
                 = string_of_list_ascii pre +:+ ":" +:+ m +:+ ";"
                     +:+ string_of_list_ascii post).
  { rewrite <- (string_of_list_ascii_of_string head), Hhead, Hmdef.
    rewrite string_of_list_ascii_app.
    change (":"%char :: (c :: group) ++ ";"%char :: post)
      with ([":"%char] ++ (c :: group) ++ [";"%char] ++ post).
    rewrite !string_of_list_ascii_app. reflexivity. }
  pose proof (List.Forall_inv Hclean) as Hhc. simpl in Hhc.
  pose proof (List.Forall_inv (List.Forall_inv_tail Hclean)) as Hpc.
  simpl in Hpc.
  rewrite Hstr in Hhc. rewrite !noByte_app in Hhc.
  apply andb_prop in Hhc. destruct Hhc as [Hbefore Hhc].
  apply andb_prop in Hhc. destruct Hhc as [_ Hhc].
  apply andb_prop in Hhc. destruct Hhc as [Hmime Hhc].
  apply andb_prop in Hhc. destruct Hhc as [_ Hafter].
  exists (string_of_list_ascii pre), (string_of_list_ascii post),
    (match rest with
     | [] => ""
     | _ :: _ => "," +:+ String.concat "," rest
     end).
  assert (Htail : (match rest with
                   | [] => ""
                   | _ :: _ => "," +:+ String.concat "," rest
                   end) = ""
                  \/ exists more,
                       (match rest with
                        | [] => ""
                        | _ :: _ => "," +:+ String.concat "," rest
                        end) = "," +:+ more)
    by (destruct rest; [left; reflexivity | right; eexists; reflexivity]).
  assert (Hurl : dataUrl
                 = head +:+ "," +:+ piece
                     +:+ (match rest with
                          | [] => ""
                          | _ :: _ => "," +:+ String.concat "," rest
                          end)).
  { rewrite <- Hjoin at 1. rewrite concat_cons by discriminate.
    destruct rest as [| r rest'].
    + change (String.concat "," [piece]) with piece.
      now rewrite append_empty_r.
    + rewrite concat_cons by discriminate. reflexivity. }
  pose proof (List.Forall_inv Hclean) as Hhead'. simpl in Hhead'.
  split; [| split; [| split; [| split; [| split; [| split; [| split;
    [| split]]]]]]].
  - rewrite <- Hstr. exact Hurl.
  - exact Hbefore.
  - exact Hmime.
  - exact Hafter.
  - exact Hpc.
  - exact Htail.
  - rewrite Hmdef. discriminate.
  - rewrite Hmdef. unfold noByte.
    rewrite list_ascii_of_string_of_list_ascii. exact Hsemi.
  - intros head' payload' tail' Hcut Hh Hp Ht. rewrite Hurl in Hcut.
    symmetry.
    exact (proj2 (comma_cut_unique _ _ _ _ _ _ Hcut Hhead' Hh Hpc Hp
                    Htail Ht)).
Qed.

Lemma splitDataUrl_sound_witness :
  exists before after tail,
    "data:image/png;base64,AAAA,BBBB"
    = (before +:+ ":" +:+ "image/png" +:+ ";" +:+ after) +:+ "," +:+ "AAAA"
        +:+ tail
    /\ noByte "," before = true
    /\ noByte "," "image/png" = true
    /\ noByte "," after = true
    /\ noByte "," "AAAA" = true
    /\ (tail = "" \/ exists more, tail = "," +:+ more)
    /\ "image/png" <> ""
    /\ noByte ";" "image/png" = true
    /\ (forall head' payload' tail',
          "data:image/png;base64,AAAA,BBBB"
          = head' +:+ "," +:+ payload' +:+ tail' ->
          noByte "," head' = true ->
          noByte "," payload' = true ->
          (tail' = "" \/ exists more, tail' = "," +:+ more) ->
          payload' = "AAAA").
Proof.
  exact (splitDataUrl_sound "data:image/png;base64,AAAA,BBBB" "image/png"
           "AAAA" eq_refl).
Defined.

Lemma splitComma_app (a b : string) :
  noByte "," a = true ->
  splitComma (a +:+ String "," b) = a :: splitComma b.
Proof.
  induction a as [| c a IH]; intros Ha; [reflexivity |].
  unfold noByte in Ha. simpl in Ha.
  apply andb_prop in Ha. destruct Ha as [Hc Ha].
  change (splitComma (String c (a +:+ String "," b))
          = String c a :: splitComma b).
  simpl. apply negb_true_iff in Hc. rewrite Hc.
  rewrite (IH Ha). reflexivity.
Qed.

Lemma splitComma_single (a : string) :
  noByte "," a = true -> splitComma a = [a].
Proof.
  induction a as [| c a IH]; intros Ha; [reflexivity |].
  unfold noByte in Ha. simpl in Ha.
  apply andb_prop in Ha. destruct Ha as [Hc Ha].
  simpl. apply negb_true_iff in Hc. rewrite Hc.
  rewrite (IH Ha). reflexivity.
Qed.

Lemma stripAny_lineTerminators_mimeByte (c : ascii) (rest : list ascii) :
  mimeByte c = true -> stripAny lineTerminators (c :: rest) = None.
Proof.
  unfold mimeByte. intros Hc.
  repeat (apply andb_prop in Hc; destruct Hc as [Hc ?]).
  repeat match goal with
         | H : negb _ = true |- _ => apply negb_true_iff in H
         end.
  apply stripAny_None. intros p r Hp Heq.
  simpl in Hp.
  destruct Hp as [<- | [<- | [<- | [<- | []]]]];
    injection Heq as Heq _; subst c; discriminate.
Qed.

Lemma lazyUntilSemicolon_mime (g post : list ascii) :
  forallb mimeByte g = true ->
  lazyUntilSemicolon (g ++ ";"%char :: post) = Some g.
Proof.
  induction g as [| c g IH]; intros Hg; [reflexivity |].
  simpl in Hg. apply andb_prop in Hg. destruct Hg as [Hc Hg].
  change ((c :: g) ++ ";"%char :: post) with (c :: (g ++ ";"%char :: post)).
  rewrite lazyUntilSemicolon_cons.
  rewrite (stripAny_lineTerminators_mimeByte c _ Hc), (IH Hg).
  unfold mimeByte in Hc.
  destruct (Ascii.eqb c ";"); [| reflexivity].
  rewrite andb_false_r in Hc. discriminate.
Qed.

(** A data URL written as [data:<mime>;base64,<payload>] splits back into
    its MIME type and payload, for every non-empty MIME type free of
    commas, semicolons and line breaks and every payload free of commas. *)
Lemma splitDataUrl_of_data_url (mime payload : string) :
  mime <> "" ->
  forallb mimeByte (list_ascii_of_string mime) = true ->
  noByte "," payload = true ->
  splitDataUrl ("data:" +:+ mime +:+ ";base64," +:+ payload)
  = inr (mime, payload).
Proof.
  intros Hne Hmime Hpayload.
  assert (Hcomma : noByte "," ("data:" +:+ mime +:+ ";base64") = true).
  { rewrite !noByte_app. rewrite andb_true_r. simpl.
    unfold noByte. apply forallb_forall. intros c Hc.
    rewrite forallb_forall in Hmime. specialize (Hmime c Hc).
    unfold mimeByte in Hmime.
    destruct (Ascii.eqb c ","); [discriminate | reflexivity]. }
  assert (Hurl : "data:" +:+ mime +:+ ";base64," +:+ payload
                 = ("data:" +:+ mime +:+ ";base64") +:+ String "," payload).
  { rewrite !append_assoc_strings. reflexivity. }
  unfold splitDataUrl. rewrite Hurl, (splitComma_app _ _ Hcomma).
  rewrite (splitComma_single _ Hpayload).
  assert (Hmatch : matchMime
                     (list_ascii_of_string ("data:" +:+ mime +:+ ";base64"))
                   = Some (list_ascii_of_string mime)).
  { rewrite !list_ascii_of_string_app. simpl.
    change (list_ascii_of_string mime
            ++ [";"; "b"; "a"; "s"; "e"; "6"; "4"]%char)
      with (list_ascii_of_string mime
            ++ ";"%char :: ["b"; "a"; "s"; "e"; "6"; "4"]%char).
    now rewrite (lazyUntilSemicolon_mime _ _ Hmime). }
  rewrite Hmatch.
  destruct mime as [| c mime]; [congruence |].
  simpl. now rewrite string_of_list_ascii_of_string.
Qed.

(** [fileToPart] hands on what the reader gives: a rejection is passed
    through unchanged, a URL without a comma is refused as invalid, and a
    URL of the form [data:<mime>;base64,<payload>] becomes an image part
    with exactly that MIME type and payload. *)
Theorem fileToPart_reads_data_url (w : World) (file : File) :
  (forall err,
      readAsDataURL w file = inl err -> fileToPart w file = inl err)
  /\ (forall url,
        readAsDataURL w file = inr url ->
        noByte "," url = true ->
        fileToPart w file = inl (JsError "Invalid data URL"))
  /\ (forall mime payload,
        readAsDataURL w file
        = inr ("data:" +:+ mime +:+ ";base64," +:+ payload) ->
        mime <> "" ->
        forallb mimeByte (list_ascii_of_string mime) = true ->
        noByte "," payload = true ->
        fileToPart w file
        = inr {| inlineData := Some {| mimeType := Some mime;
                                       data := Some payload |};
                 text := None |}).
Proof.
  unfold fileToPart. split; [| split].
  - intros err ->. reflexivity.
  - intros url -> Hurl. unfold splitDataUrl.
    rewrite (splitComma_single url Hurl). reflexivity.
  - intros mime payload -> Hne Hmime Hpayload.
    rewrite (splitDataUrl_of_data_url mime payload Hne Hmime Hpayload).
    reflexivity.
Qed.

Lemma fileToPart_reads_data_url_witness :
  fileToPart sampleWorld fileA = inr partA.
Proof.
  refine (proj2 (proj2 (fileToPart_reads_data_url sampleWorld fileA))
            "image/png" "AAAA" eq_refl _ eq_refl eq_refl).
  discriminate.
Defined.

(** What the validator returns decodes to a file of the declared type: for
    an accepted response whose image part declares a MIME type free of
    commas, semicolons and line breaks and carries comma-free data,
    [dataURLtoFile] applied to the returned URL hands [atob] exactly that
    data and builds the file with exactly that type. *)
Theorem returned_image_keeps_declared_type
  (w : World) (response : GenerateContentResponse)
  (context filename mime payload : string) (part : Part) :
  truthy_string (promptBlockReason response) = false ->
  imagePartFromResponse response = Some part ->
  inlineData part = Some {| mimeType := Some mime; data := Some payload |} ->
  mime <> "" ->
  forallb mimeByte (list_ascii_of_string mime) = true ->
  noByte "," payload = true ->
  exists url,
    handleApiResponse response context = inr url
    /\ dataURLtoFile w url filename
       = match atob w payload with
         | inl err => inl err
         | inr bits => inr (newFile w bits filename mime)
         end.
Proof.
  intros Hb Hp Hd Hne Hmime Hpayload.
  exists ("data:" +:+ mime +:+ ";base64," +:+ payload). split.
  - unfold handleApiResponse. rewrite Hb, Hp, Hd. reflexivity.
  - unfold dataURLtoFile.
    rewrite (splitDataUrl_of_data_url mime payload Hne Hmime Hpayload).
    reflexivity.
Qed.

Lemma returned_image_keeps_declared_type_witness :
  exists url,
    handleApiResponse stoppedImageReply "edit" = inr url
    /\ dataURLtoFile sampleWorld url "edited-0.png"
       = inr {| fileName := "edited-0.png"; fileType := "image/png";
                fileBits := "iVBORw0KGgo=" |}.
Proof.
  refine (returned_image_keeps_declared_type sampleWorld stoppedImageReply
            "edit" "edited-0.png" "image/png" "iVBORw0KGgo="
            {| inlineData := Some pngBlob; text := None |}
            eq_refl eq_refl eq_refl _ eq_refl eq_refl).
  discriminate.
Defined.

(** ** What a task does to the state *)

(** A task either leaves the sequence and the position as they were, or
    it has appended exactly one artifact: then that artifact is the current
    image at the last index, no error is shown, the busy flag is down, and
    the faces and the extracted text of the previous image are gone. *)
Theorem task_appends_at_most_one
  (w : World) (task : Task) (st : AppState) :
  let st' := fst (runTask w task st) in
  (history st' = history st /\ historyIndex st' = historyIndex st)
  \/ (exists artifact,
        history st'
        = slice0 (history st) (historyIndex st + 1) ++ [artifact]
        /\ historyIndex st' = Z.of_nat (length (history st')) - 1
        /\ currentImage st' = Some artifact
        /\ error st' = None
        /\ isLoading st' = false
        /\ faces st' = []
        /\ extractedText st' = Some "").
Proof.
  assert (Hcur : forall (artifact : File) (h : list File),
             index (h ++ [artifact]) (Z.of_nat (length (h ++ [artifact])) - 1)
             = Some artifact) by (intros; apply index_last_app).
  task_cases task;
    try (left; split; reflexivity);
    right; eexists; repeat split; apply Hcur.
Qed.

(** Text extraction and face detection never touch the sequence or the
    position, whatever the service answers. *)
Theorem reading_tasks_leave_history (w : World) (st : AppState) :
  history (fst (handleExtractText w st)) = history st
  /\ historyIndex (fst (handleExtractText w st)) = historyIndex st
  /\ history (fst (handleDetectFaces w st)) = history st
  /\ historyIndex (fst (handleDetectFaces w st)) = historyIndex st.
Proof.
  unfold handleExtractText, handleDetectFaces.
  destruct (currentImage st) as [image |]; [| repeat split].
  destruct (extractTextFromImage w image) as [[err | txt] sent];
    destruct (detectFaces w image) as [[err' | found] sent'];
    simpl; try destruct (truthy_string txt); repeat split.
Qed.



Lemma act_loading (step : World * Action) (st : AppState) :
  isLoading st = false -> isLoading (act step st) = false.
Proof.
  intros Hl. destruct step as [w [task | |]]; simpl.
  - task_cases task; simpl; try reflexivity; exact Hl.
  - unfold handleUndo. destruct (canUndo st); [exact Hl | exact Hl].
  - unfold handleRedo. destruct (canRedo st); [exact Hl | exact Hl].
Qed.

(** The busy flag never stays up: from a state that is not loading, a
    session of tasks, undos and redos ends in a state that is not loading,
    whether the tasks succeed or fail. *)
Theorem session_never_left_loading
  (steps : list (World * Action)) (st : AppState) :
  isLoading st = false -> isLoading (runSession steps st) = false.
Proof.
  revert st. induction steps as [| step steps IH]; intros st Hl; simpl.
  - exact Hl.
  - apply IH, act_loading, Hl.
Qed.

Lemma session_never_left_loading_witness :
  isLoading
    (runSession [(failingWorld, Perform Retouch);
                 (sampleWorld, Perform (Filter "sepia"));
                 (sampleWorld, UndoAction)] readyState) = false.
Proof.
  exact (session_never_left_loading
           [(failingWorld, Perform Retouch);
            (sampleWorld, Perform (Filter "sepia"));
            (sampleWorld, UndoAction)] readyState eq_refl).
Defined.

(** Any task, undo or redo that changes the sequence or the position
    also clears the detected faces and the extracted text. Undo and redo
    clear nothing else: the focus point, its marker on the image and the
    crop selection are after them what they were before. *)
Theorem history_change_clears_faces_and_text
  (step : World * Action) (st : AppState) :
  ((history (act step st) = history st
    /\ historyIndex (act step st) = historyIndex st)
   \/ (faces (act step st) = [] /\ extractedText (act step st) = Some ""))
  /\ (forall w,
        step = (w, UndoAction) \/ step = (w, RedoAction) ->
        editHotspot (act step st) = editHotspot st
        /\ displayHotspot (act step st) = displayHotspot st
        /\ crop (act step st) = crop st
        /\ completedCrop (act step st) = completedCrop st).
Proof.
  split.
  - destruct step as [w [task | |]]; simpl.
    + task_cases task;
        try (left; split; reflexivity); right; split; reflexivity.
    + unfold handleUndo. destruct (canUndo st);
        [right; split; reflexivity | left; split; reflexivity].
    + unfold handleRedo. destruct (canRedo st);
        [right; split; reflexivity | left; split; reflexivity].
  - intros w [-> | ->]; simpl.
    + unfold handleUndo. destruct (canUndo st); repeat split.
    + unfold handleRedo. destruct (canRedo st); repeat split.
Qed.

(** ** What a task sends *)

Ltac unfold_services :=
  unfold generateEditedImage, generateFilteredImage, generateAdjustedImage,
    generateEnhancedImage, extractTextFromImage, detectFaces,
    removeBackground, getCroppedImg, generateContent, bind, lift, ret.

Ltac split_all :=
  repeat match goal with
         | |- context [match ?c with _ => _ end] =>
             lazymatch c with
             | context [match _ with _ => _ end] => fail
             | _ => destruct c eqn:?
             end
         end.

(** A task sends at most one request to the service, and cropping and
    resizing send none. *)
Theorem requests_are_sparing (w : World) (task : Task) (st : AppState) :
  (length (snd (runTask w task st)) <= 1)%nat
  /\ (usesService task = false -> snd (runTask w task st) = []).
Proof.
  split.
  - destruct task; simpl; unfold_handlers; unfold_services;
      split_all; simpl; lia.
  - destruct task; try discriminate; intros _; simpl; unfold_handlers;
      unfold_services; split_all; reflexivity.
Qed.

Lemma requests_are_sparing_witness :
  snd (runTask sampleWorld (Resize 640 480) threeStepState) = [].
Proof.
  exact (proj2 (requests_are_sparing sampleWorld (Resize 640 480)
                  threeStepState) eq_refl).
Defined.

(** When a delegated task has passed its local checks but the client
    cannot be built, or the current image cannot be read, nothing is sent:
    the handler shows its own failure prefix followed by the message of
    what was thrown (a fixed text when that is not an [Error]), lowers the
    busy flag and leaves the history alone. *)
Theorem early_failures_send_nothing
  (w : World) (task : Task) (st : AppState) (image : File) (err : Thrown) :
  usesService task = true ->
  currentImage st = Some image ->
  (task = Retouch ->
   trim (prompt st) <> "" /\ editHotspot st <> None) ->
  (newGoogleGenAI w = inl err
   \/ (newGoogleGenAI w = inr tt /\ readAsDataURL w image = inl err)) ->
  snd (runTask w task st) = []
  /\ error (fst (runTask w task st))
     = Some (failurePrefix task +:+ errorMessage err)
  /\ isLoading (fst (runTask w task st)) = false
  /\ history (fst (runTask w task st)) = history st
  /\ historyIndex (fst (runTask w task st)) = historyIndex st.
Proof.
  intros Huses Himage Hretouch Hfail.
  assert (Hpart : newGoogleGenAI w = inr tt ->
                  readAsDataURL w image = inl err ->
                  fileToPart w image = inl err)
    by (intros _ Hr; unfold fileToPart; now rewrite Hr).
  destruct task; try discriminate; simpl; unfold_handlers;
    rewrite Himage;
    try (destruct (Hretouch eq_refl) as [Hprompt Hhot];
         destruct (trim (prompt st)) as [| c rest]; [congruence |];
         destruct (editHotspot st) as [hotspot |]; [| congruence];
         simpl);
    unfold_services;
    (destruct Hfail as [Hc | [Hc Hr]];
     [rewrite Hc | rewrite Hc, (Hpart Hc Hr)]);
    repeat split.
Qed.

Lemma early_failures_send_nothing_witness :
  snd (runTask unreadableWorld BackgroundRemoval threeStepState) = []
  /\ error (fst (runTask unreadableWorld BackgroundRemoval threeStepState))
     = Some "Failed to remove background. An unknown error occurred."
  /\ isLoading (fst (runTask unreadableWorld BackgroundRemoval threeStepState))
     = false
  /\ history (fst (runTask unreadableWorld BackgroundRemoval threeStepState))
     = history threeStepState
  /\ historyIndex
       (fst (runTask unreadableWorld BackgroundRemoval threeStepState))
     = historyIndex threeStepState.
Proof.
  refine (early_failures_send_nothing unreadableWorld BackgroundRemoval
            threeStepState fileC NonError eq_refl eq_refl _ _).
  - discriminate.
  - right. split; reflexivity.
Defined.

(** ** Face detection on entries of any shape *)

Lemma inUnitRange_primitive (w : World) (v : option Json) :
  isPrimitive v = true ->
  inUnitRange w v = inr (numberWithinUnit (numberOfPrimitive w v)).
Proof.
  destruct v as [[| [|] | n | s | items | props] |];
    try discriminate; reflexivity.
Qed.

Lemma faceInRange_plain (w : World) (face : Json) :
  isNull face = false ->
  plainFields face = true ->
  faceInRange w face = inr (coercedWithinUnit w face).
Proof.
  intros Hn Hplain. unfold plainFields in Hplain.
  apply andb_prop in Hplain. destruct Hplain as [Hplain Hh].
  apply andb_prop in Hplain. destruct Hplain as [Hplain Hw].
  apply andb_prop in Hplain. destruct Hplain as [Hx Hy].
  assert (Hget : forall k, getProp face k = inr (field face k))
    by (intros k; destruct face; try discriminate; reflexivity).
  unfold faceInRange, coercedWithinUnit. rewrite !Hget.
  rewrite (inUnitRange_primitive w _ Hx), (inUnitRange_primitive w _ Hy),
    (inUnitRange_primitive w _ Hw), (inUnitRange_primitive w _ Hh).
  destruct (numberWithinUnit (numberOfPrimitive w (field face "x")));
    [| reflexivity].
  destruct (numberWithinUnit (numberOfPrimitive w (field face "y")));
    [| reflexivity].
  destruct (numberWithinUnit (numberOfPrimitive w (field face "width")));
    reflexivity.
Qed.

Lemma faceInRange_throws (w : World) (face : Json) :
  isNull face = true \/ hasUnconvertibleX face = true ->
  exists err, faceInRange w face = inl err.
Proof.
  intros [Hn | Hx].
  - destruct face; try discriminate. eexists. reflexivity.
  - unfold hasUnconvertibleX, field in Hx.
    destruct face as [| | | | | props]; try discriminate.
    destruct (lookupProp "x" props) as [[| | | | | inner] |] eqn:Hlx;
      try discriminate.
    destruct (lookupProp "toString" inner) as [v |] eqn:Hts;
      [| discriminate].
    eexists. unfold faceInRange, getProp, inUnitRange, toNumber.
    rewrite Hlx. simpl. rewrite Hts. reflexivity.
Qed.

Lemma filterThrowing_throws {A : Type} (callback : A -> Result bool)
  (arr : list A) (a : A) (err : Thrown) :
  In a arr -> callback a = inl err ->
  exists err', filterThrowing callback arr = inl err'.
Proof.
  induction arr as [| b arr IH]; simpl; [intros [] |].
  intros [-> | Hin] Ha.
  - rewrite Ha. eauto.
  - destruct (callback b) as [e | keep]; [eauto |].
    destruct (IH Hin Ha) as [err' ->]. eauto.
Qed.

Lemma filterThrowing_total {A : Type} (callback : A -> Result bool)
  (keep : A -> bool) (arr : list A) :
  (forall a, In a arr -> callback a = inr (keep a)) ->
  filterThrowing callback arr = inr (List.filter keep arr).
Proof.
  induction arr as [| b arr IH]; simpl; [reflexivity |].
  intros Hall. rewrite (Hall b (or_introl eq_refl)).
  rewrite IH by (intros a Ha; apply Hall; now right). reflexivity.
Qed.

(** A field that is an object with an own [toString] property cannot be
    compared: the callback throws on such an entry. *)
Example unconvertible_field_throws :
  faceInRange sampleWorld
    (JObj [("x", JObj [("toString", JNum 1)]); ("y", JNum 0.5);
           ("width", JNum 0.5); ("height", JNum 0.5)])
  = inl (JsError "Cannot convert object to primitive value").
Proof. reflexivity. Qed.

(** For a parsed face list of any content. If some entry is [null], or
    has an [x] that is an object with an own [toString] property, the
    whole detection fails with the invalid-format error, valid faces
    notwithstanding. If no entry is [null] and the four fields of every
    entry are missing or primitive, the result is the sub-list, in order,
    of the entries whose four fields, converted to numbers, lie within
    [0, 1]; so an entry that lacks a field, or is not an object, is
    dropped. *)
Theorem detected_faces_of_any_shape
  (w : World) (image : File) (part : Part)
  (response : GenerateContentResponse) (txt : string)
  (result : Json) (items : list Json) :
  newGoogleGenAI w = inr tt ->
  fileToPart w image = inr part ->
  serviceReply w (detectFacesRequest part) = inr response ->
  responseText response = Some txt ->
  JSON_parse w (trim txt) = inr result ->
  facesArray result = Some items ->
  (existsb isNull items = true \/ existsb hasUnconvertibleX items = true ->
   fst (detectFaces w image)
   = inl (JsError "The AI model returned an invalid format for face detection."))
  /\ (existsb isNull items = false ->
      forallb plainFields items = true ->
      fst (detectFaces w image)
      = inr (List.filter (coercedWithinUnit w) items)).
Proof.
  intros Hc Hp Hs Ht Hj Hf.
  rewrite (detectFaces_reply w image part response Hc Hp Hs). simpl.
  unfold detectFacesTry. rewrite Ht, Hj.
  destruct result as [| | | | | props]; try discriminate. simpl in *.
  destruct (lookupProp "faces" props) as [[| | | | faceItems |] |];
    try discriminate.
  injection Hf as ->. simpl. split.
  - intros Hbad.
    assert (Hex : exists face,
               In face items
               /\ (isNull face = true \/ hasUnconvertibleX face = true)).
    { destruct Hbad as [Hbad | Hbad]; apply existsb_exists in Hbad;
        destruct Hbad as (face & Hin & Hface); exists face; auto. }
    destruct Hex as (face & Hin & Hface).
    destruct (faceInRange_throws w face Hface) as [err Herr].
    destruct (filterThrowing_throws _ items face err Hin Herr) as [err' ->].
    reflexivity.
  - intros Hnull Hplain.
    rewrite (filterThrowing_total (faceInRange w) (coercedWithinUnit w)).
    + reflexivity.
    + intros face Hin. apply faceInRange_plain.
      * destruct (isNull face) eqn:Hn; [| reflexivity].
        assert (existsb isNull items = true)
          by (apply existsb_exists; eauto).
        congruence.
      * rewrite forallb_forall in Hplain. now apply Hplain.
Qed.

Lemma detected_faces_of_any_shape_witness :
  fst (detectFaces (textWorld nullFaceText) fileA)
  = inl (JsError "The AI model returned an invalid format for face detection.")
  /\ fst (detectFaces (textWorld twoFacesText) fileA)
     = inr [boxJson insideFace].
Proof.
  split.
  - refine (proj1 (detected_faces_of_any_shape (textWorld nullFaceText)
                     fileA partA (textReply nullFaceText) nullFaceText
                     (JObj [("faces", JArr [JNull])]) [JNull]
                     eq_refl eq_refl eq_refl eq_refl eq_refl eq_refl) _).
    left. reflexivity.
  - exact (proj2 (detected_faces_of_any_shape (textWorld twoFacesText)
                    fileA partA (textReply twoFacesText) twoFacesText
                    twoFacesJson [boxJson insideFace; boxJson outsideFace]
                    eq_refl eq_refl eq_refl eq_refl eq_refl eq_refl)
             eq_refl eq_refl).
Defined.

(** Once the service has answered, face detection fails in one way only:
    whatever goes wrong with the answer (no text at all, unparsable text, a
    property read that throws) reaches the caller as the invalid-format
    error, and the one request has been sent. *)
Theorem detectFaces_fails_as_invalid_format
  (w : World) (image : File) (part : Part)
  (response : GenerateContentResponse) :
  newGoogleGenAI w = inr tt ->
  fileToPart w image = inr part ->
  serviceReply w (detectFacesRequest part) = inr response ->
  snd (detectFaces w image) = [detectFacesRequest part]
  /\ (forall err,
        fst (detectFaces w image) = inl err ->
        err = JsError "The AI model returned an invalid format for face detection.")
  /\ (responseText response = None ->
      fst (detectFaces w image)
      = inl (JsError "The AI model returned an invalid format for face detection.")).
Proof.
  intros Hc Hp Hs.
  rewrite (detectFaces_reply w image part response Hc Hp Hs). simpl.
  split; [reflexivity | split].
  - intros err. destruct (detectFacesTry w response); congruence.
  - intros Ht. unfold detectFacesTry. rewrite Ht. reflexivity.
Qed.

Lemma detectFaces_fails_as_invalid_format_witness :
  snd (detectFaces (replyWorld imageReply) fileA) = [detectFacesRequest partA]
  /\ fst (detectFaces (replyWorld imageReply) fileA)
     = inl (JsError "The AI model returned an invalid format for face detection.").
Proof.
  destruct (detectFaces_fails_as_invalid_format (replyWorld imageReply)
              fileA partA imageReply eq_refl eq_refl eq_refl)
    as (Hsent & _ & Htext).
  split; [exact Hsent | exact (Htext eq_refl)].
Defined.

(** ** Text extraction *)

(** Text extraction does not validate the response: whatever the block
    reason, the candidates or the finish reason are, the handler stores the
    response text as it is and reports no error; only when the text is
    missing or empty does it say so in a toast. The history is untouched. *)
Theorem extracted_text_is_stored_unchecked
  (w : World) (st : AppState) (image : File) (part : Part)
  (response : GenerateContentResponse) :
  currentImage st = Some image ->
  newGoogleGenAI w = inr tt ->
  fileToPart w image = inr part ->
  serviceReply w (extractTextRequest part) = inr response ->
  let st' := fst (handleExtractText w st) in
  extractedText st' = responseText response
  /\ error st' = None
  /\ isLoading st' = false
  /\ history st' = history st
  /\ historyIndex st' = historyIndex st
  /\ toast st'
     = if truthy_string (responseText response) then toast st
       else Some {| toastMessage := "No text found in the image.";
                    toastKey := dateNow w |}.
Proof.
  intros Hi Hc Hp Hs st'. subst st'.
  unfold handleExtractText. rewrite Hi.
  unfold extractTextFromImage, bind, lift, ret, generateContent.
  rewrite Hc, Hp, Hs. simpl.
  destruct (truthy_string (responseText response)); repeat split.
Qed.

Lemma extracted_text_is_stored_unchecked_witness :
  extractedText (fst (handleExtractText (replyWorld blockedOcrReply)
                        uploadedState))
  = Some "INVOICE 42"
  /\ error (fst (handleExtractText (replyWorld blockedOcrReply)
                   uploadedState)) = None.
Proof.
  destruct (extracted_text_is_stored_unchecked (replyWorld blockedOcrReply)
              uploadedState fileA partA blockedOcrReply
              eq_refl eq_refl eq_refl eq_refl)
    as (Ht & He & _).
  split; [exact Ht | exact He].
Defined.

(** ** The panels *)

Lemma adjustments_changed (s : EnhancePanel.Sliders) :
  EnhancePanel.adjustments s = [] <->
  EnhancePanel.hasSliderChanged s = false.
Proof.
  unfold EnhancePanel.adjustments, EnhancePanel.hasSliderChanged,
    EnhancePanel.describe.
  destruct (EnhancePanel.brightness s =? 0),
    (EnhancePanel.contrast s =? 0), (EnhancePanel.saturation s =? 0),
    (EnhancePanel.sharpness s =? 0); simpl; split; congruence.
Qed.

Lemma slider_prompt_trimmed (listing : string) :
  let p := "Apply the following photorealistic adjustments to the image: "
             +:+ listing +:+ "." in
  trim p = p /\ p <> "".
Proof.
  intros p. split; [| discriminate].
  apply trim_fixed; [reflexivity |].
  subst p. rewrite !list_ascii_of_string_app, !rev_app_distr.
  reflexivity.
Qed.

(** Every text the enhance panel passes on is ready for the service: a
    preset, or the slider sentence, which is sent exactly when some slider
    is off zero (and then the sliders go back to zero); either way the
    text is not blank and has no whitespace to trim. With all sliders at
    zero nothing is passed on. *)
Theorem enhance_panel_texts_are_not_blank
  (c : EnhancePanel.Click) (s : EnhancePanel.Sliders) :
  (forall s' p,
      EnhancePanel.click c s = (s', Some p) -> trim p = p /\ p <> "")
  /\ (EnhancePanel.hasSliderChanged s = false ->
      EnhancePanel.handleApplySliders s = (s, None))
  /\ (EnhancePanel.hasSliderChanged s = true ->
      exists p,
        EnhancePanel.handleApplySliders s
        = (EnhancePanel.resetSliders, Some p)).
Proof.
  split; [| split].
  - intros s' p. destruct c as [number |]; simpl.
    + do 4 (destruct number as [| number];
            [intros [= _ <-]; split; [reflexivity | discriminate] |]).
      destruct number; discriminate.
    + unfold EnhancePanel.handleApplySliders.
      destruct (EnhancePanel.adjustments s) as [| first others];
        [discriminate |].
      intros [= _ <-]. apply slider_prompt_trimmed.
  - intros Hs. apply adjustments_changed in Hs.
    unfold EnhancePanel.handleApplySliders. now rewrite Hs.
  - intros Hs. unfold EnhancePanel.handleApplySliders.
    destruct (EnhancePanel.adjustments s) as [| first others] eqn:Ha.
    + apply adjustments_changed in Ha. congruence.
    + eexists. reflexivity.
Qed.

Lemma enhance_panel_texts_are_not_blank_witness :
  EnhancePanel.handleApplySliders
    {| EnhancePanel.brightness := 20; EnhancePanel.contrast := 0;
       EnhancePanel.saturation := -5; EnhancePanel.sharpness := 0 |}
  = (EnhancePanel.resetSliders,
     Some "Apply the following photorealistic adjustments to the image: increase brightness by 20%, decrease color saturation by 5%.")
  /\ trim "Apply the following photorealistic adjustments to the image: increase brightness by 20%, decrease color saturation by 5%."
     = "Apply the following photorealistic adjustments to the image: increase brightness by 20%, decrease color saturation by 5%.".
Proof.
  split; [reflexivity |].
  exact (proj1 (proj1 (enhance_panel_texts_are_not_blank
                         EnhancePanel.ApplySliders
                         {| EnhancePanel.brightness := 20;
                            EnhancePanel.contrast := 0;
                            EnhancePanel.saturation := -5;
                            EnhancePanel.sharpness := 0 |})
                  _ _ eq_refl)).
Defined.

(** The video panel passes on the trimmed text, and only when that is
    not empty: what it passes on neither starts nor ends with whitespace,
    and a blank input passes nothing. *)
Theorem video_panel_passes_trimmed_text (prompt : string) :
  (forall p,
      GenerateVideoPanel.handleGenerate prompt = Some p ->
      p = trim prompt /\ p <> "" /\ trim p = p
      /\ startsWithWhitespace p = false /\ endsWithWhitespace p = false)
  /\ (GenerateVideoPanel.handleGenerate prompt = None <->
      trim prompt = "").
Proof.
  unfold GenerateVideoPanel.handleGenerate.
  destruct (trim_clean prompt) as [Hstart Hend].
  destruct (trim prompt) as [| c rest] eqn:Ht; simpl.
  - split; [discriminate | split; reflexivity].
  - split; [| split; discriminate].
    intros p [= <-].
    split; [reflexivity |]. split; [discriminate |].
    split; [exact (trim_fixed _ Hstart Hend) |].
    unfold startsWithWhitespace, endsWithWhitespace.
    now rewrite Hstart, Hend.
Qed.

Lemma video_panel_passes_trimmed_text_witness :
  "a gentle breeze" = trim "  a gentle breeze  "
  /\ "a gentle breeze" <> ""
  /\ trim "a gentle breeze" = "a gentle breeze"
  /\ startsWithWhitespace "a gentle breeze" = false
  /\ endsWithWhitespace "a gentle breeze" = false.
Proof.
  exact (proj1 (video_panel_passes_trimmed_text "  a gentle breeze  ")
           "a gentle breeze" eq_refl).
Defined.

(** ** A retouch from end to end *)

(** A retouch that goes well, step by step: the handler sends one request
    built from the current image, the typed text and the focus point; when
    the answer is an unblocked image whose MIME type and data are well
    formed and [atob] decodes the data, the new artifact is the file made
    of the decoded bytes under the declared type, named after the time; it
    is appended and current, the focus point is cleared, no error is
    shown, and the typed text stays. *)
Theorem retouch_end_to_end
  (w : World) (st : AppState) (image : File) (hotspot : Hotspot)
  (part answer : Part) (response : GenerateContentResponse)
  (mime payload bits : string) :
  currentImage st = Some image ->
  trim (prompt st) <> "" ->
  editHotspot st = Some hotspot ->
  newGoogleGenAI w = inr tt ->
  fileToPart w image = inr part ->
  serviceReply w (editRequest w part (prompt st) hotspot) = inr response ->
  truthy_string (promptBlockReason response) = false ->
  imagePartFromResponse response = Some answer ->
  inlineData answer = Some {| mimeType := Some mime; data := Some payload |} ->
  mime <> "" ->
  forallb mimeByte (list_ascii_of_string mime) = true ->
  noByte "," payload = true ->
  atob w payload = inr bits ->
  let artifact := newFile w bits (timestamped w "edited-") mime in
  let st' := fst (handleGenerate w st) in
  snd (handleGenerate w st) = [editRequest w part (prompt st) hotspot]
  /\ history st'
     = slice0 (history st) (historyIndex st + 1) ++ [artifact]
  /\ currentImage st' = Some artifact
  /\ editHotspot st' = None
  /\ displayHotspot st' = None
  /\ error st' = None
  /\ isLoading st' = false
  /\ prompt st' = prompt st.
Proof.
  intros Hi Hprompt Hhot Hc Hp Hs Hb Ha Hd Hne Hmime Hpayload Hatob
    artifact st'.
  assert (Hrun : handleGenerate w st
                 = (setIsLoading false
                      (setDisplayHotspot None
                         (setEditHotspot None
                            (addImageToHistory artifact
                               (startLoading "AI is thinking..." st)))),
                    [editRequest w part (prompt st) hotspot])).
  { unfold handleGenerate. rewrite Hi, Hhot.
    destruct (trim (prompt st)) as [| c rest]; [congruence |]. simpl.
    unfold generateEditedImage, bind, lift, generateContent.
    rewrite Hc, Hp, Hs. unfold handleApiResponse. rewrite Hb, Ha, Hd.
    unfold dataURLtoFile. simpl template.
    rewrite (splitDataUrl_of_data_url mime payload Hne Hmime Hpayload).
    rewrite Hatob. reflexivity. }
  subst st'. rewrite Hrun. simpl.
  repeat split.
  apply (index_last_app
           (slice0 (history st) (historyIndex st + 1)) artifact).
Qed.

Lemma retouch_end_to_end_witness :
  let artifact :=
    {| fileName := "edited-0.png"; fileType := "image/png";
       fileBits := "iVBORw0KGgo=" |} in
  snd (handleGenerate sampleWorld readyState)
  = [editRequest sampleWorld
       {| inlineData := Some {| mimeType := Some "image/png";
                                data := Some "BBBB" |};
          text := None |}
       "remove the person" {| hx := 120; hy := 80 |}]
  /\ history (fst (handleGenerate sampleWorld readyState))
     = slice0 (history readyState) (historyIndex readyState + 1)
         ++ [artifact]
  /\ currentImage (fst (handleGenerate sampleWorld readyState))
     = Some artifact
  /\ editHotspot (fst (handleGenerate sampleWorld readyState)) = None
  /\ displayHotspot (fst (handleGenerate sampleWorld readyState)) = None
  /\ error (fst (handleGenerate sampleWorld readyState)) = None
  /\ isLoading (fst (handleGenerate sampleWorld readyState)) = false
  /\ prompt (fst (handleGenerate sampleWorld readyState))
     = prompt readyState.
Proof.
  refine (retouch_end_to_end sampleWorld readyState fileB
            {| hx := 120; hy := 80 |}
            {| inlineData := Some {| mimeType := Some "image/png";
                                     data := Some "BBBB" |};
               text := None |}
            {| inlineData := Some pngBlob; text := None |}
            imageReply "image/png" "iVBORw0KGgo=" "iVBORw0KGgo="
            eq_refl _ eq_refl eq_refl eq_refl eq_refl eq_refl eq_refl
            eq_refl _ eq_refl eq_refl eq_refl); discriminate.
Defined.

(** ** Sessions, continued *)

(** After an upload the application always has an image to show: however
    the tasks of a session end, and whatever is undone or redone, the
    position stays valid, the current image exists, and the original is
    the uploaded file. *)
Theorem session_always_shows_an_image
  (file : File) (st0 : AppState) (steps : list (World * Action)) :
  let st := runSession steps (handleImageUpload file st0) in
  0 <= historyIndex st <= Z.of_nat (length (history st)) - 1
  /\ (exists current, currentImage st = Some current)
  /\ originalImage st = Some file.
Proof.
  intros st. subst st.
  destruct (session_invariant file st0 steps) as [Hv Ho].
  split; [exact Hv |]. split; [| exact Ho].
  apply index_valid, Hv.
Qed.

(** ** Cropping and resizing *)

(** The local tasks at their edges. A crop with no completed selection, a
    selection of zero or NaN width or height, or no mounted image is
    ignored altogether. A crop or a resize on a browser that gives no 2d
    context fails with the handler's message and leaves the history alone.
    A resize without a mounted image or without a current image only shows
    its own error. *)
Theorem local_tasks_at_their_edges (w : World) (st : AppState) :
  ((completedCrop st = None
    \/ (exists c, completedCrop st = Some c
                  /\ (truthy_number (cropWidth c) = false
                      \/ truthy_number (cropHeight c) = false))
    \/ imgMounted w = false) ->
   handleApplyCrop w st = (st, []))
  /\ (forall c,
        completedCrop st = Some c ->
        truthy_number (cropWidth c) = true ->
        truthy_number (cropHeight c) = true ->
        imgMounted w = true ->
        getContext2d w = false ->
        error (fst (handleApplyCrop w st))
        = Some "Failed to crop the image. Failed to get canvas context"
        /\ history (fst (handleApplyCrop w st)) = history st
        /\ historyIndex (fst (handleApplyCrop w st)) = historyIndex st)
  /\ (forall image width height,
        currentImage st = Some image ->
        imgMounted w = true ->
        getContext2d w = false ->
        error (fst (handleApplyResize w width height st))
        = Some "Failed to resize the image. Could not get canvas context"
        /\ history (fst (handleApplyResize w width height st)) = history st
        /\ historyIndex (fst (handleApplyResize w width height st))
           = historyIndex st)
  /\ (forall width height,
        (imgMounted w = false \/ currentImage st = None) ->
        handleApplyResize w width height st
        = (setError (Some "Image reference not found for resizing.") st, [])).
Proof.
  split; [| split; [| split]].
  - unfold handleApplyCrop.
    intros [Hnone | [(c & Hc & Hzero) | Hunmounted]].
    + now rewrite Hnone.
    + rewrite Hc. destruct Hzero as [Hz | Hz]; rewrite Hz;
        [reflexivity | now rewrite andb_false_r].
    + destruct (completedCrop st); [| reflexivity].
      now rewrite Hunmounted, andb_false_r.
  - intros c Hc Hw Hh Hm Hctx. unfold handleApplyCrop, getCroppedImg.
    rewrite Hc, Hw, Hh, Hm, Hctx. repeat split.
  - intros image width height Hi Hm Hctx. unfold handleApplyResize.
    rewrite Hm, Hi, Hctx. repeat split.
  - intros width height Hbad. unfold handleApplyResize.
    destruct Hbad as [Hm | Hi]; [now rewrite Hm |].
    rewrite Hi. now destruct (imgMounted w).
Qed.

Lemma local_tasks_at_their_edges_witness :
  handleApplyCrop sampleWorld threeStepState = (threeStepState, [])
  /\ error (fst (handleApplyCrop contextlessWorld croppingState))
     = Some "Failed to crop the image. Failed to get canvas context"
  /\ history (fst (handleApplyResize contextlessWorld 64 64 croppingState))
     = history croppingState.
Proof.
  split; [| split].
  - apply (proj1 (local_tasks_at_their_edges sampleWorld threeStepState)).
    left. reflexivity.
  - destruct (proj1 (proj2 (local_tasks_at_their_edges contextlessWorld
                              croppingState))
                {| cropX := 10; cropY := 10; cropWidth := 40;
                   cropHeight := 30 |}
                eq_refl eq_refl eq_refl eq_refl eq_refl) as [He _].
    exact He.
  - destruct (proj1 (proj2 (proj2 (local_tasks_at_their_edges
                                     contextlessWorld croppingState)))
                fileC 64%float 64%float eq_refl eq_refl eq_refl)
      as (_ & Hh & _).
    exact Hh.
Defined.
